(** * A shallow embedding of pkg/flight/client.go

    The Arrow Flight client of the pipeline: [NewFlightClient], [Close],
    [PutBatch], [GetBatch] and [ListBatches].  The client is a thin layer of
    control flow over three libraries (gRPC, Arrow Flight, Arrow IPC), so the
    embedding has two layers:

    - the libraries, as small modules named after the Go packages
      ([context], [fmt], [grpc], [flight], [arrow]), acting on a [World] that
      holds the clock, the log of the calls issued, the reference-counted
      records and the state of the stream objects.  What the remote
      service answers is a [Client], and what the network does to a dial a
      [Network]: records of replies, one per library call, over which every
      theorem quantifies;
    - the client functions, transcribed statement by statement from the
      source in a state monad over [World] whose outcomes also cover a Go
      panic and a call that blocks forever. *)

From Stdlib Require Import ZArith String Ascii List Bool Lia.
From Stdlib Require Import Init.Byte.
From stdpp Require Import base option list gmap strings.

Local Open Scope Z_scope.

(* ===================================================================== *)
(** ** Go values: strings, byte slices, errors                            *)
(* ===================================================================== *)

(** A Go [string] is a sequence of bytes and so is Rocq's [string]; a
    [[]byte] is a [list byte].  The conversions [string(b)] and [[]byte(s)]
    copy the bytes unchanged. *)
Definition string_of_bytes (b : list byte) : string := string_of_list_byte b.
Definition bytes_of_string (s : string) : list byte := list_byte_of_string s.

(** Go's [error] values.  [None : option error] is the [nil] error. *)
Inductive error : Type :=
| io_EOF                                  (* io.EOF *)
| DeadlineExceeded                        (* context.DeadlineExceeded *)
| Canceled                                (* context.Canceled *)
| LibraryError (msg : string)             (* any other error of gRPC or of the IPC codec *)
| errorString (s : string)                (* fmt.Errorf without %w *)
| wrapError (msg : string) (err : error). (* fmt.Errorf with %w *)

(** [err.Error()] *)
Definition Error (e : error) : string :=
  match e with
  | io_EOF => "EOF"
  | DeadlineExceeded => "context deadline exceeded"
  | Canceled => "context canceled"
  | LibraryError msg => msg
  | errorString s => s
  | wrapError msg _ => msg
  end.

(** [x != nil] *)
Definition not_nil {A} (x : option A) : bool :=
  match x with
  | Some _ => true
  | None => false
  end.

(** [errors.Unwrap(err)] *)
Definition Unwrap (e : error) : option error :=
  match e with
  | wrapError _ err => Some err
  | _ => None
  end.

Definition error_eqb_shallow (a b : error) : bool :=
  match a, b with
  | io_EOF, io_EOF => true
  | DeadlineExceeded, DeadlineExceeded => true
  | Canceled, Canceled => true
  | _, _ => false
  end.

(** [errors.Is(err, target)] for the sentinel targets: walk the chain of
    wrapped errors looking for [target]. *)
Fixpoint Is (e target : error) : bool :=
  error_eqb_shallow e target ||
  match e with
  | wrapError _ err => Is err target
  | _ => false
  end.

Module fmt.

(** [fmt.Errorf(prefix + "%w", err)]: the message is the prefix followed by
    the cause's message, and the cause stays reachable by [Unwrap]. *)
Definition Errorf_w (prefix : string) (err : error) : error :=
  wrapError (prefix +:+ Error err) err.

(** [fmt.Errorf(msg)] with no verb. *)
Definition Errorf (msg : string) : error := errorString msg.

End fmt.

(** Neither string is a prefix of the other: they differ at some position
    that both have. *)
Fixpoint diverge (p q : string) : bool :=
  match p, q with
  | String a p', String b q' => if Ascii.eqb a b then diverge p' q' else true
  | _, _ => false
  end.

(* ===================================================================== *)
(** ** Data exchanged with the libraries                                  *)
(* ===================================================================== *)

(** [time.Duration] counts nanoseconds; instants are nanoseconds too. *)
Definition Duration : Type := Z.
Definition Second : Duration := 1000000000.

(** [context.Context], as far as the client uses it: the deadline it
    carries, if any.  A cancellation by the caller reaches the client as a
    [Fail Canceled] reply of the library call it interrupts. *)
Record Context : Type := { Deadline : option Z }.

(** [grpc.DialOption] *)
Inductive Credentials : Type := insecure_NewCredentials.
Inductive DialOption : Type :=
| WithTransportCredentials (creds : Credentials)
| WithBlock
| WithTimeout (d : Duration).

(** [*grpc.ClientConn] *)
Record ClientConn : Type := { conn_target : string }.

(** [memory.Allocator]; [None : option memory_Allocator] is the nil
    interface. *)
Inductive memory_Allocator : Type :=
| GoAllocator                      (* what memory.NewGoAllocator() returns *)
| OtherAllocator (tag : nat).

(** Protocol messages of Arrow Flight (Flight.proto), with the fields of
    the generated Go structs.  A pointer to a message is an [option]. *)
Inductive DescriptorType : Type := DescriptorUNKNOWN | DescriptorPATH | DescriptorCMD.

Record FlightDescriptor : Type := {
  Type_ : DescriptorType;
  Cmd : list byte;
  Path : list string
}.

Record FlightData : Type := {
  FlightData_FlightDescriptor : option FlightDescriptor;
  DataHeader : list byte;
  FlightData_AppMetadata : list byte;
  DataBody : list byte
}.

Record PutResult : Type := { AppMetadata : list byte }.

Record Ticket : Type := { Ticket_ : list byte }.

Record Criteria : Type := { Expression : list byte }.

Record FlightInfo : Type := {
  FlightInfo_Schema : list byte;
  FlightInfo_FlightDescriptor : option FlightDescriptor;
  TotalRecords : Z;
  TotalBytes : Z
}.

(** [*arrow.Schema]: the ordered fields, name and type. *)
Definition Schema : Type := list (string * string).

(** What a record batch holds: its schema, one buffer per column and the
    number of rows. *)
Record Batch : Type := {
  batch_schema : Schema;
  batch_columns : list (list byte);
  batch_rows : Z
}.

(** An [arrow.Record] is a reference to a reference-counted object; [None]
    is the nil interface. *)
Definition loc : Type := positive.
Definition arrow_Record : Type := option loc.

(** A record object in memory: its reference count and its buffers.  When
    the count drops to zero the buffers go back to the allocator, which the
    model renders by removing the object from the heap. *)
Record Object : Type := {
  refCount : Z;
  contents : Batch
}.

(** What a library call gets from the network and the remote service: a
    result, an error, or nothing at all. *)
Inductive Reply (A : Type) : Type :=
| Ok (a : A)
| Fail (e : error)
| Silent.
Arguments Ok {A} a.
Arguments Fail {A} e.
Arguments Silent {A}.

(** The behaviour of a [flight.Client]: one reply per call the client
    issues on it.  Replies may depend on what the client sends; streams are
    indexed by the number of messages already received on them. *)
Record Client : Type := {
  on_DoPut : Reply unit;
  on_Send : FlightData -> Reply unit;
  on_Write : Batch -> Reply unit;
  on_WriterClose : Reply unit;
  on_PutResult : Reply PutResult;
  on_DoGet : Ticket -> Reply unit;
  on_Schema : Reply Schema;
  on_Batch : nat -> Reply (option Batch);
  on_ListFlights : Criteria -> Reply unit;
  on_FlightInfo : nat -> Reply FlightInfo;
  on_ClientClose : option error
}.

(** The network as [NewFlightClient] meets it: how the two channels it
    opens come up, and the service found at an address. *)
Record Network : Type := {
  on_Dial : string -> Reply unit;
  on_NewClient : string -> Reply unit;
  service_at : string -> Client;
  on_ConnClose : option error
}.

(** Stream and codec objects handed out by the Flight library.  A stream
    remembers the context it was opened under. *)
Record Stream : Type := { stream_client : Client; stream_ctx : Context }.
Record Writer : Type := { writer_stream : Stream; writer_schema : Schema }.
Record Reader : Type := { reader_stream : Stream; reader_schema : Schema }.

(** Every call the client issues to a library, with its arguments. *)
Inductive Call : Type :=
| call_WithTimeout (parent : Context) (timeout : Duration)
| call_cancel
| call_Dial (target : string) (opts : list DialOption)
| call_NewClientWithMiddleware (addr : string) (opts : list DialOption)
| call_ConnClose
| call_ClientClose
| call_DoPut (ctx : Context)
| call_Send (fd : FlightData)
| call_NewRecordWriter (schema : Schema)
| call_Write (batch : arrow_Record)
| call_WriterClose
| call_PutRecv
| call_DoGet (ctx : Context) (ticket : Ticket)
| call_NewRecordReader
| call_Next
| call_Err
| call_Record
| call_Retain (batch : arrow_Record)
| call_ReaderRelease
| call_ListFlights (ctx : Context) (criteria : Criteria)
| call_InfoRecv.

(** The mutable state of an [ipc.Reader]. *)
Record ReaderState : Type := {
  rs_refCount : Z;
  rs_rec : arrow_Record;         (* the record Next decoded last *)
  rs_err : option error;
  rs_done : bool;
  rs_read : nat                  (* record batch messages consumed *)
}.

(** The state the client runs in. *)
Record World : Type := {
  now : Z;                       (* time.Now() *)
  calls : list Call;             (* library calls issued, oldest first *)
  heap : gmap loc Object;        (* live record objects *)
  rstate : ReaderState;          (* the reader of the open DoGet stream *)
  received : nat                 (* flight infos received on the open ListFlights stream *)
}.

Definition set_calls (f : list Call -> list Call) (w : World) : World :=
  {| now := now w; calls := f (calls w); heap := heap w;
     rstate := rstate w; received := received w |}.
Definition set_heap (f : gmap loc Object -> gmap loc Object) (w : World) : World :=
  {| now := now w; calls := calls w; heap := f (heap w);
     rstate := rstate w; received := received w |}.
Definition set_rstate (f : ReaderState -> ReaderState) (w : World) : World :=
  {| now := now w; calls := calls w; heap := heap w;
     rstate := f (rstate w); received := received w |}.
Definition set_received (f : nat -> nat) (w : World) : World :=
  {| now := now w; calls := calls w; heap := heap w;
     rstate := rstate w; received := f (received w) |}.

(* ===================================================================== *)
(** ** The monad of client code                                           *)
(* ===================================================================== *)

(** How a call can end. *)
Inductive Outcome (A : Type) : Type :=
| Done (a : A)        (* it returned [a] *)
| Panicked            (* a run-time panic unwound it *)
| Blocked             (* it waits for ever *)
| OutOfFuel.          (* the model's bound on loop iterations was reached *)
Arguments Done {A} a.
Arguments Panicked {A}.
Arguments Blocked {A}.
Arguments OutOfFuel {A}.

Definition M (A : Type) : Type := World -> Outcome A * World.

Definition ret {A} (a : A) : M A := fun w => (Done a, w).

Definition bind {A B} (m : M A) (k : A -> M B) : M B := fun w =>
  match m w with
  | (Done a, w') => k a w'
  | (Panicked, w') => (Panicked, w')
  | (Blocked, w') => (Blocked, w')
  | (OutOfFuel, w') => (OutOfFuel, w')
  end.

Notation "x <- m ;; k" := (bind m (fun x => k))
  (at level 100, m at next level, right associativity).
Notation "m ;;; k" := (bind m (fun _ => k))
  (at level 100, right associativity).

Definition panic {A} : M A := fun w => (Panicked, w).
Definition block {A} : M A := fun w => (Blocked, w).
Definition out_of_fuel {A} : M A := fun w => (OutOfFuel, w).
Definition get_world : M World := fun w => (Done w, w).
Definition modify (f : World -> World) : M unit := fun w => (Done tt, f w).
Definition log (c : Call) : M unit := modify (set_calls (fun cs => cs ++ [c])).

(** [defer cleanup] followed by [body]: the deferred call runs when the body
    returns and when it panics; a body that never ends never reaches it. *)
Definition defer {A} (cleanup : M unit) (body : M A) : M A := fun w =>
  match body w with
  | (Done a, w1) =>
      match cleanup w1 with
      | (Done _, w2) => (Done a, w2)
      | (Panicked, w2) => (Panicked, w2)
      | (Blocked, w2) => (Blocked, w2)
      | (OutOfFuel, w2) => (OutOfFuel, w2)
      end
  | (Panicked, w1) => (Panicked, snd (cleanup w1))
  | (Blocked, w1) => (Blocked, w1)
  | (OutOfFuel, w1) => (OutOfFuel, w1)
  end.

(** A library call made under [ctx] that got reply [r]: a silent peer makes
    the call end with the deadline error when [ctx] has a deadline, and makes
    it wait for ever when it has none. *)
Definition await {A} (ctx : Context) (r : Reply A) : M (A + error) :=
  match r with
  | Ok a => ret (inl a)
  | Fail e => ret (inr e)
  | Silent =>
      match Deadline ctx with
      | Some _ => ret (inr DeadlineExceeded)
      | None => block
      end
  end.

(* ===================================================================== *)
(** ** The libraries                                                      *)
(* ===================================================================== *)

Module context.

Definition Background : Context := {| Deadline := None |}.

(** [context.WithDeadline]: a parent whose deadline is already sooner than
    [d] keeps it. *)
Definition WithDeadline (parent : Context) (d : Z) : Context :=
  match Deadline parent with
  | Some cur => if cur <? d then parent else {| Deadline := Some d |}
  | None => {| Deadline := Some d |}
  end.

(** [context.WithTimeout(parent, timeout)] is
    [WithDeadline(parent, time.Now().Add(timeout))]. *)
Definition WithTimeout (parent : Context) (timeout : Duration) : M Context :=
  w <- get_world;;
  log (call_WithTimeout parent timeout);;;
  ret (WithDeadline parent (now w + timeout)).

(** The [cancel] function [WithTimeout] returns. *)
Definition cancel : M unit := log call_cancel.

End context.

Module arrow.

(** Dereference a record: nil and freed records have nothing to read. *)
Definition deref (r : arrow_Record) : M Object := fun w =>
  match r with
  | Some l =>
      match heap w !! l with
      | Some o => (Done o, w)
      | None => (Panicked, w)
      end
  | None => (Panicked, w)
  end.

(** [rec.Schema()] *)
Definition Schema_ (r : arrow_Record) : M Schema :=
  o <- deref r;;
  ret (batch_schema (contents o)).

Definition retain_obj (o : Object) : Object :=
  {| refCount := refCount o + 1; contents := contents o |}.

(** [rec.Retain()]: one more owner. *)
Definition Retain (r : arrow_Record) : M unit :=
  log (call_Retain r);;;
  match r with
  | Some l => modify (set_heap (alter retain_obj l))
  | None => panic
  end.

(** What [rec.Release()] does to the heap: one owner less, and the buffers
    are freed when the last one goes. *)
Definition release_in (l : loc) (h : gmap loc Object) : gmap loc Object :=
  match h !! l with
  | Some o =>
      if refCount o - 1 =? 0 then delete l h
      else <[l := {| refCount := refCount o - 1; contents := contents o |}]> h
  | None => h
  end.

Definition release (r : arrow_Record) : M unit :=
  match r with
  | Some l => modify (set_heap (release_in l))
  | None => ret tt
  end.

(** A freshly decoded record, owned once by whoever decoded it. *)
Definition alloc (b : Batch) : M loc := fun w =>
  let l := fresh (dom (heap w)) in
  (Done l, set_heap (insert l {| refCount := 1; contents := b |}) w).

End arrow.

Module grpc.

Definition is_WithBlock (o : DialOption) : bool :=
  match o with WithBlock => true | _ => false end.

Definition blocking (opts : list DialOption) : bool := existsb is_WithBlock opts.

(** The timeout the options set, if any (a later option overrides). *)
Fixpoint dial_timeout (opts : list DialOption) : option Duration :=
  match opts with
  | [] => None
  | WithTimeout d :: rest =>
      match dial_timeout rest with Some d' => Some d' | None => Some d end
  | _ :: rest => dial_timeout rest
  end.

(** How a dial with [opts] ends on reply [r].  Without [WithBlock] it
    returns at once and connects in the background; with it, it waits until
    the channel is ready, an error is reported, or the timeout of the
    options elapses. *)
Definition dialled (opts : list DialOption) (r : Reply unit) : M (option error) :=
  match r with
  | Ok _ => ret None
  | Fail e => ret (Some e)
  | Silent =>
      if blocking opts then
        match dial_timeout opts with
        | Some _ => ret (Some DeadlineExceeded)
        | None => block
        end
      else ret None
  end.

(** [grpc.Dial(target, opts...)] *)
Definition Dial (net : Network) (target : string) (opts : list DialOption)
  : M (ClientConn + error) :=
  log (call_Dial target opts);;;
  err <- dialled opts (on_Dial net target);;
  match err with
  | Some e => ret (inr e)
  | None => ret (inl {| conn_target := target |})
  end.

(** [conn.Close()] *)
Definition Close (net : Network) (cc : ClientConn) : M (option error) :=
  log call_ConnClose;;;
  ret (on_ConnClose net).

End grpc.

Module flight.

(** [flight.NewClientWithMiddleware(addr, nil, nil, opts...)] opens a
    channel of its own with the same options. *)
Definition NewClientWithMiddleware (net : Network) (addr : string) (opts : list DialOption)
  : M (Client + error) :=
  log (call_NewClientWithMiddleware addr opts);;;
  err <- grpc.dialled opts (on_NewClient net addr);;
  match err with
  | Some e => ret (inr e)
  | None => ret (inl (service_at net addr))
  end.

(** [client.Close()] *)
Definition Close (c : Client) : M (option error) :=
  log call_ClientClose;;;
  ret (on_ClientClose c).

Definition as_error {A} (r : A + error) : option error :=
  match r with
  | inl _ => None
  | inr e => Some e
  end.

(** [client.DoPut(ctx)] *)
Definition DoPut (c : Client) (ctx : Context) : M (Stream + error) :=
  log (call_DoPut ctx);;;
  r <- await ctx (on_DoPut c);;
  match r with
  | inl _ => ret (inl {| stream_client := c; stream_ctx := ctx |})
  | inr e => ret (inr e)
  end.

(** [stream.Send(data)] on a DoPut stream *)
Definition Send (s : Stream) (fd : FlightData) : M (option error) :=
  log (call_Send fd);;;
  r <- await (stream_ctx s) (on_Send (stream_client s) fd);;
  ret (as_error r).

(** [flight.NewRecordWriter(stream, ipc.WithSchema(schema))] *)
Definition NewRecordWriter (s : Stream) (schema : Schema) : M Writer :=
  log (call_NewRecordWriter schema);;;
  ret {| writer_stream := s; writer_schema := schema |}.

(** [writer.Write(rec)]: the schema message first, then the record's
    buffers, on the writer's stream. *)
Definition Write (wr : Writer) (batch : arrow_Record) : M (option error) :=
  log (call_Write batch);;;
  o <- arrow.deref batch;;
  r <- await (stream_ctx (writer_stream wr))
         (on_Write (stream_client (writer_stream wr)) (contents o));;
  ret (as_error r).

(** [writer.Close()] *)
Definition WriterClose (wr : Writer) : M (option error) :=
  log call_WriterClose;;;
  r <- await (stream_ctx (writer_stream wr))
         (on_WriterClose (stream_client (writer_stream wr)));;
  ret (as_error r).

(** [stream.Recv()] on a DoPut stream *)
Definition PutRecv (s : Stream) : M (PutResult + error) :=
  log call_PutRecv;;;
  await (stream_ctx s) (on_PutResult (stream_client s)).

(** [client.DoGet(ctx, ticket)] *)
Definition DoGet (c : Client) (ctx : Context) (ticket : Ticket) : M (Stream + error) :=
  log (call_DoGet ctx ticket);;;
  r <- await ctx (on_DoGet c ticket);;
  match r with
  | inl _ => ret (inl {| stream_client := c; stream_ctx := ctx |})
  | inr e => ret (inr e)
  end.

Definition fresh_reader : ReaderState :=
  {| rs_refCount := 1; rs_rec := None; rs_err := None; rs_done := false; rs_read := 0%nat |}.

(** [flight.NewRecordReader(stream)]: reads the schema message the stream
    starts with. *)
Definition NewRecordReader (s : Stream) : M (Reader + error) :=
  log call_NewRecordReader;;;
  r <- await (stream_ctx s) (on_Schema (stream_client s));;
  match r with
  | inl schema =>
      modify (set_rstate (fun _ => fresh_reader));;;
      ret (inl {| reader_stream := s; reader_schema := schema |})
  | inr e => ret (inr e)
  end.

Definition drop_rec (st : ReaderState) : ReaderState :=
  {| rs_refCount := rs_refCount st; rs_rec := None; rs_err := rs_err st;
     rs_done := rs_done st; rs_read := rs_read st |}.
Definition hold_rec (l : loc) (st : ReaderState) : ReaderState :=
  {| rs_refCount := rs_refCount st; rs_rec := Some l; rs_err := rs_err st;
     rs_done := rs_done st; rs_read := S (rs_read st) |}.
Definition finish (e : option error) (st : ReaderState) : ReaderState :=
  {| rs_refCount := rs_refCount st; rs_rec := rs_rec st; rs_err := e;
     rs_done := true; rs_read := rs_read st |}.
Definition unref (st : ReaderState) : ReaderState :=
  {| rs_refCount := rs_refCount st - 1; rs_rec := rs_rec st; rs_err := rs_err st;
     rs_done := rs_done st; rs_read := rs_read st |}.

(** [reader.Next()]: gives up the record decoded before, then decodes the
    next message.  A clean end of the stream leaves no error behind. *)
Definition Next (rd : Reader) : M bool :=
  log call_Next;;;
  w <- get_world;;
  arrow.release (rs_rec (rstate w));;;
  modify (set_rstate drop_rec);;;
  if not_nil (rs_err (rstate w)) || rs_done (rstate w) then ret false
  else
    r <- await (stream_ctx (reader_stream rd))
           (on_Batch (stream_client (reader_stream rd)) (rs_read (rstate w)));;
    match r with
    | inl (Some b) =>
        l <- arrow.alloc b;;
        modify (set_rstate (hold_rec l));;;
        ret true
    | inl None =>
        modify (set_rstate (finish None));;;
        ret false
    | inr e =>
        modify (set_rstate (finish (Some e)));;;
        ret false
    end.

(** [reader.Err()] *)
Definition Err (rd : Reader) : M (option error) :=
  log call_Err;;;
  w <- get_world;;
  ret (rs_err (rstate w)).

(** [reader.Record()] *)
Definition Record_ (rd : Reader) : M arrow_Record :=
  log call_Record;;;
  w <- get_world;;
  ret (rs_rec (rstate w)).

(** [reader.Release()]: when the reader's last owner goes, the reader gives
    up the record it holds. *)
Definition Release (rd : Reader) : M unit :=
  log call_ReaderRelease;;;
  modify (set_rstate unref);;;
  w <- get_world;;
  if rs_refCount (rstate w) =? 0 then
    arrow.release (rs_rec (rstate w));;;
    modify (set_rstate drop_rec)
  else ret tt.

(** [client.ListFlights(ctx, criteria)] *)
Definition ListFlights (c : Client) (ctx : Context) (criteria : Criteria)
  : M (Stream + error) :=
  log (call_ListFlights ctx criteria);;;
  r <- await ctx (on_ListFlights c criteria);;
  match r with
  | inl _ =>
      modify (set_received (fun _ => 0%nat));;;
      ret (inl {| stream_client := c; stream_ctx := ctx |})
  | inr e => ret (inr e)
  end.

(** [stream.Recv()] on a ListFlights stream *)
Definition InfoRecv (s : Stream) : M (FlightInfo + error) :=
  log call_InfoRecv;;;
  w <- get_world;;
  r <- await (stream_ctx s) (on_FlightInfo (stream_client s) (received w));;
  match r with
  | inl info =>
      modify (set_received S);;;
      ret (inl info)
  | inr e => ret (inr e)
  end.

End flight.

(* ===================================================================== *)
(** ** The client (pkg/flight/client.go)                                   *)
(* ===================================================================== *)

(** [FlightClient] is a client for the Arrow Flight server. *)
Record FlightClient : Type := {
  client : Client;
  addr : string;
  allocator : option memory_Allocator;
  conn : ClientConn
}.

(** [FlightClientConfig] contains configuration options for the client. *)
Record FlightClientConfig : Type := {
  Addr : string;
  Allocator : option memory_Allocator
}.

(** The gRPC options [NewFlightClient] sets up. *)
Definition dial_opts : list DialOption :=
  [ WithTransportCredentials insecure_NewCredentials;
    WithBlock;
    WithTimeout (5 * Second) ].

(** [NewFlightClient] creates a new Arrow Flight client. *)
Definition NewFlightClient (net : Network) (config : FlightClientConfig)
  : M (option FlightClient * option error) :=
  let config :=
    if String.eqb (Addr config) "" then
      {| Addr := "localhost:8080"; Allocator := Allocator config |}
    else config in
  let config :=
    match Allocator config with
    | None => {| Addr := Addr config; Allocator := Some GoAllocator |}
    | Some _ => config
    end in
  let opts := dial_opts in
  r <- grpc.Dial net (Addr config) opts;;
  match r with
  | inr err =>
      ret (None, Some (fmt.Errorf_w
             ("failed to connect to Flight server at " +:+ Addr config +:+ ": ") err))
  | inl conn =>
      r <- flight.NewClientWithMiddleware net (Addr config) opts;;
      match r with
      | inr err =>
          grpc.Close net conn;;;
          ret (None, Some (fmt.Errorf_w "failed to create Flight client: " err))
      | inl client =>
          ret (Some {| client := client; addr := Addr config;
                       allocator := Allocator config; conn := conn |}, None)
      end
  end.

(** [Close] closes the Flight client. *)
Definition Close (net : Network) (c : FlightClient) : M (option error) :=
  flight.Close (client c);;;
  grpc.Close net (conn c).

(** The descriptor [PutBatch] announces an upload with. *)
Definition put_descriptor : FlightDescriptor :=
  {| Type_ := DescriptorCMD; Cmd := bytes_of_string "put"; Path := [] |}.

(** [&flight.FlightData{FlightDescriptor: descriptor}]: every other field
    has its zero value. *)
Definition descriptor_frame (descriptor : FlightDescriptor) : FlightData :=
  {| FlightData_FlightDescriptor := Some descriptor;
     DataHeader := []; FlightData_AppMetadata := []; DataBody := [] |}.

(** [PutBatch] sends a batch to the Flight server and returns the batch ID. *)
Definition PutBatch (c : FlightClient) (ctx : Context) (batch : arrow_Record)
  : M (string * option error) :=
  ctx <- context.WithTimeout ctx (30 * Second);;
  defer context.cancel (
    let descriptor := put_descriptor in
    r <- flight.DoPut (client c) ctx;;
    match r with
    | inr err => ret ("", Some (fmt.Errorf_w "failed to start DoPut stream: " err))
    | inl stream =>
        err <- flight.Send stream (descriptor_frame descriptor);;
        match err with
        | Some err => ret ("", Some (fmt.Errorf_w "failed to send descriptor: " err))
        | None =>
            schema <- arrow.Schema_ batch;;
            writer <- flight.NewRecordWriter stream schema;;
            err <- flight.Write writer batch;;
            match err with
            | Some err =>
                flight.WriterClose writer;;;
                ret ("", Some (fmt.Errorf_w "failed to write batch to stream: " err))
            | None =>
                err <- flight.WriterClose writer;;
                match err with
                | Some err => ret ("", Some (fmt.Errorf_w "failed to close writer: " err))
                | None =>
                    r <- flight.PutRecv stream;;
                    match r with
                    | inr err =>
                        ret ("", Some (fmt.Errorf_w "failed to receive result: " err))
                    | inl result =>
                        ret (string_of_bytes (AppMetadata result), None)
                    end
                end
            end
        end
    end).

(** [GetBatch] retrieves a batch from the Flight server by ID. *)
Definition GetBatch (c : FlightClient) (ctx : Context) (batchID : string)
  : M (arrow_Record * option error) :=
  ctx <- context.WithTimeout ctx (30 * Second);;
  defer context.cancel (
    let ticket := {| Ticket_ := bytes_of_string batchID |} in
    r <- flight.DoGet (client c) ctx ticket;;
    match r with
    | inr err => ret (None, Some (fmt.Errorf_w "failed to start DoGet stream: " err))
    | inl stream =>
        r <- flight.NewRecordReader stream;;
        match r with
        | inr err => ret (None, Some (fmt.Errorf_w "failed to create record reader: " err))
        | inl reader =>
            defer (flight.Release reader) (
              more <- flight.Next reader;;
              if negb more then
                err <- flight.Err reader;;
                match err with
                | Some err => ret (None, Some (fmt.Errorf_w "error reading batch: " err))
                | None => ret (None, Some (fmt.Errorf "no batch received"))
                end
              else
                batch <- flight.Record_ reader;;
                arrow.Retain batch;;;
                ret (batch, None))
        end
    end).

(** The [for] loop of [ListBatches].  [info.FlightDescriptor.Cmd] reads
    through the descriptor pointer: a nil pointer panics. *)
Fixpoint ListBatches_loop (fuel : nat) (stream : Stream) (batchIDs : list string)
  : M (list string) :=
  match fuel with
  | O => out_of_fuel
  | S fuel' =>
      r <- flight.InfoRecv stream;;
      match r with
      | inr err => ret batchIDs
      | inl info =>
          match FlightInfo_FlightDescriptor info with
          | None => panic
          | Some d =>
              ListBatches_loop fuel' stream (batchIDs ++ [string_of_bytes (Cmd d)])
          end
      end
  end.

(** [ListBatches] lists all batches in the Flight server. *)
Definition ListBatches (fuel : nat) (c : FlightClient) (ctx : Context)
  : M (list string * option error) :=
  ctx <- context.WithTimeout ctx (30 * Second);;
  defer context.cancel (
    let criteria := {| Expression := [] |} in
    r <- flight.ListFlights (client c) ctx criteria;;
    match r with
    | inr err => ret ([], Some (fmt.Errorf_w "failed to start ListFlights stream: " err))
    | inl stream =>
        batchIDs <- ListBatches_loop fuel stream [];;
        ret (batchIDs, None)
    end).

(* ===================================================================== *)
(** ** Concrete services and worlds                                       *)
(* ===================================================================== *)

Definition sample_schema : Schema := [("id", "int64"); ("value", "float64")].

Definition sample_batch : Batch :=
  {| batch_schema := sample_schema;
     batch_columns := [bytes_of_string "ab"; bytes_of_string "cd"];
     batch_rows := 2 |}.

Definition info_of (id : string) : FlightInfo :=
  {| FlightInfo_Schema := [];
     FlightInfo_FlightDescriptor :=
       Some {| Type_ := DescriptorCMD; Cmd := bytes_of_string id; Path := [] |};
     TotalRecords := 2; TotalBytes := 4 |}.

(** A flight info whose descriptor pointer is nil. *)
Definition info_bare : FlightInfo :=
  {| FlightInfo_Schema := []; FlightInfo_FlightDescriptor := None;
     TotalRecords := 0; TotalBytes := 0 |}.

(** A service that stores one batch under "batch-1" and lists two. *)
Definition good_service : Client :=
  {| on_DoPut := Ok tt;
     on_Send := fun _ => Ok tt;
     on_Write := fun _ => Ok tt;
     on_WriterClose := Ok tt;
     on_PutResult := Ok {| AppMetadata := bytes_of_string "batch-1" |};
     on_DoGet := fun _ => Ok tt;
     on_Schema := Ok sample_schema;
     on_Batch := fun k =>
       match k with
       | O => Ok (Some sample_batch)
       | S O => Ok (Some sample_batch)
       | _ => Ok None
       end;
     on_ListFlights := fun _ => Ok tt;
     on_FlightInfo := fun k =>
       match k with
       | O => Ok (info_of "batch-1")
       | S O => Ok (info_of "batch-2")
       | _ => Fail io_EOF
       end;
     on_ClientClose := None |}.

(** A peer that never answers anything. *)
Definition mute_service : Client :=
  {| on_DoPut := Silent;
     on_Send := fun _ => Silent;
     on_Write := fun _ => Silent;
     on_WriterClose := Silent;
     on_PutResult := Silent;
     on_DoGet := fun _ => Silent;
     on_Schema := Silent;
     on_Batch := fun _ => Silent;
     on_ListFlights := fun _ => Silent;
     on_FlightInfo := fun _ => Silent;
     on_ClientClose := None |}.

(** A peer whose streams open and accept what is sent, and which never
    sends anything back. *)
Definition deaf_service : Client :=
  {| on_DoPut := Ok tt;
     on_Send := fun _ => Ok tt;
     on_Write := fun _ => Ok tt;
     on_WriterClose := Ok tt;
     on_PutResult := Silent;
     on_DoGet := fun _ => Ok tt;
     on_Schema := Silent;
     on_Batch := fun _ => Silent;
     on_ListFlights := fun _ => Ok tt;
     on_FlightInfo := fun _ => Silent;
     on_ClientClose := None |}.

(** Variations of a service: the replies to one call replaced. *)
Definition with_Write (r : Reply unit) (s : Client) : Client :=
  {| on_DoPut := on_DoPut s; on_Send := on_Send s; on_Write := fun _ => r;
     on_WriterClose := on_WriterClose s; on_PutResult := on_PutResult s;
     on_DoGet := on_DoGet s; on_Schema := on_Schema s; on_Batch := on_Batch s;
     on_ListFlights := on_ListFlights s; on_FlightInfo := on_FlightInfo s;
     on_ClientClose := on_ClientClose s |}.
Definition with_Schema (r : Reply Schema) (s : Client) : Client :=
  {| on_DoPut := on_DoPut s; on_Send := on_Send s; on_Write := on_Write s;
     on_WriterClose := on_WriterClose s; on_PutResult := on_PutResult s;
     on_DoGet := on_DoGet s; on_Schema := r; on_Batch := on_Batch s;
     on_ListFlights := on_ListFlights s; on_FlightInfo := on_FlightInfo s;
     on_ClientClose := on_ClientClose s |}.
Definition with_Batch (r : nat -> Reply (option Batch)) (s : Client) : Client :=
  {| on_DoPut := on_DoPut s; on_Send := on_Send s; on_Write := on_Write s;
     on_WriterClose := on_WriterClose s; on_PutResult := on_PutResult s;
     on_DoGet := on_DoGet s; on_Schema := on_Schema s; on_Batch := r;
     on_ListFlights := on_ListFlights s; on_FlightInfo := on_FlightInfo s;
     on_ClientClose := on_ClientClose s |}.
Definition with_FlightInfo (r : nat -> Reply FlightInfo) (s : Client) : Client :=
  {| on_DoPut := on_DoPut s; on_Send := on_Send s; on_Write := on_Write s;
     on_WriterClose := on_WriterClose s; on_PutResult := on_PutResult s;
     on_DoGet := on_DoGet s; on_Schema := on_Schema s; on_Batch := on_Batch s;
     on_ListFlights := on_ListFlights s; on_FlightInfo := r;
     on_ClientClose := on_ClientClose s |}.

(** A listing whose second flight info has no descriptor. *)
Definition bare_listing : Client :=
  with_FlightInfo
    (fun k =>
       match k with
       | O => Ok (info_of "batch-1")
       | S O => Ok info_bare
       | _ => Fail io_EOF
       end)
    good_service.

(** A download stream that ends before its first batch. *)
Definition empty_download : Client := with_Batch (fun _ => Ok None) good_service.

Definition client_of (s : Client) : FlightClient :=
  {| client := s; addr := "localhost:8080"; allocator := Some GoAllocator;
     conn := {| conn_target := "localhost:8080" |} |}.

(** A world at time 1000 s in which the caller owns one record, at
    address 1. *)
Definition world0 : World :=
  {| now := 1000 * Second;
     calls := [];
     heap := {[ 1%positive := {| refCount := 1; contents := sample_batch |} ]};
     rstate := flight.fresh_reader;
     received := 0%nat |}.

Definition good_network : Network :=
  {| on_Dial := fun _ => Ok tt;
     on_NewClient := fun _ => Ok tt;
     service_at := fun _ => good_service;
     on_ConnClose := None |}.

Definition dead_network : Network :=
  {| on_Dial := fun _ => Silent;
     on_NewClient := fun _ => Silent;
     service_at := fun _ => mute_service;
     on_ConnClose := None |}.

Definition refusing_network : Network :=
  {| on_Dial := fun _ => Fail (LibraryError "connection refused");
     on_NewClient := fun _ => Fail (LibraryError "connection refused");
     service_at := fun _ => mute_service;
     on_ConnClose := None |}.

(* ===================================================================== *)
(** ** Vocabulary of the statements                                       *)
(* ===================================================================== *)

(** The calls a run of [m] adds to the log. *)
Definition issued {A} (m : M A) (w : World) : list Call :=
  drop (length (calls w)) (calls (snd (m w))).

(** What a library call returns on reply [r] when its context has a
    deadline: a peer that stays silent costs the caller the deadline error. *)
Definition settled {A} (r : Reply A) : A + error :=
  match r with
  | Ok a => inl a
  | Fail e => inr e
  | Silent => inr DeadlineExceeded
  end.

(** A record is valid while it is on the heap with at least one owner. *)
Definition valid (h : gmap loc Object) (l : loc) : Prop :=
  exists o, h !! l = Some o /\ 1 <= refCount o.

(** The context the three operations run their calls under. *)
Definition call_ctx (ctx : Context) (w : World) : Context :=
  context.WithDeadline ctx (now w + 30 * Second).

(** The steps of [PutBatch] that can fail, in program order, and the
    message each failure is reported under. *)
Inductive PutPhase : Type :=
| OpenStream | SendDescriptor | WriteBatch | CloseWriter | ReceiveAck.

Definition put_index (p : PutPhase) : nat :=
  match p with
  | OpenStream => 0
  | SendDescriptor => 1
  | WriteBatch => 2
  | CloseWriter => 3
  | ReceiveAck => 4
  end.

Definition put_tag (p : PutPhase) : string :=
  match p with
  | OpenStream => "failed to start DoPut stream: "
  | SendDescriptor => "failed to send descriptor: "
  | WriteBatch => "failed to write batch to stream: "
  | CloseWriter => "failed to close writer: "
  | ReceiveAck => "failed to receive result: "
  end.

(** The library call that carries out a phase. *)
Definition put_call (p : PutPhase) (c : Call) : bool :=
  match p, c with
  | OpenStream, call_DoPut _ => true
  | SendDescriptor, call_Send _ => true
  | WriteBatch, call_Write _ => true
  | CloseWriter, call_WriterClose => true
  | ReceiveAck, call_PutRecv => true
  | _, _ => false
  end.

(** What the library call of phase [p] reports when it is made for an
    upload of [batch], under a context with a deadline: [Some None] is
    success, [Some (Some e)] the error [e]; there is nothing to write when
    [batch] refers to no record. *)
Definition put_step (s : Client) (h : gmap loc Object) (batch : arrow_Record)
    (p : PutPhase) : option (option error) :=
  match p with
  | OpenStream => Some (flight.as_error (settled (on_DoPut s)))
  | SendDescriptor =>
      Some (flight.as_error (settled (on_Send s (descriptor_frame put_descriptor))))
  | WriteBatch =>
      match batch with
      | Some l =>
          match h !! l with
          | Some o => Some (flight.as_error (settled (on_Write s (contents o))))
          | None => None
          end
      | None => None
      end
  | CloseWriter => Some (flight.as_error (settled (on_WriterClose s)))
  | ReceiveAck => Some (flight.as_error (settled (on_PutResult s)))
  end.

(** Every phase before [p] succeeds. *)
Definition put_reaches (s : Client) (h : gmap loc Object) (batch : arrow_Record)
    (p : PutPhase) : Prop :=
  forall q, (put_index q < put_index p)%nat -> put_step s h batch q = Some None.

(** Phase [p] is the first to fail, with [cause]. *)
Definition put_fails (s : Client) (h : gmap loc Object) (batch : arrow_Record)
    (p : PutPhase) (cause : error) : Prop :=
  put_reaches s h batch p /\ put_step s h batch p = Some (Some cause).

(** The steps of [GetBatch] that a transport or decode error can hit. *)
Inductive GetPhase : Type :=
| OpenGet | CreateReader | ReadBatch.

Definition get_index (p : GetPhase) : nat :=
  match p with
  | OpenGet => 0
  | CreateReader => 1
  | ReadBatch => 2
  end.

Definition get_tag (p : GetPhase) : string :=
  match p with
  | OpenGet => "failed to start DoGet stream: "
  | CreateReader => "failed to create record reader: "
  | ReadBatch => "error reading batch: "
  end.

Definition get_step (s : Client) (batchID : string) (p : GetPhase) : option error :=
  match p with
  | OpenGet => flight.as_error (settled (on_DoGet s {| Ticket_ := bytes_of_string batchID |}))
  | CreateReader => flight.as_error (settled (on_Schema s))
  | ReadBatch => flight.as_error (settled (on_Batch s 0))
  end.

Definition get_reaches (s : Client) (batchID : string) (p : GetPhase) : Prop :=
  forall q, (get_index q < get_index p)%nat -> get_step s batchID q = None.

Definition get_fails (s : Client) (batchID : string) (p : GetPhase) (cause : error) : Prop :=
  get_reaches s batchID p /\ get_step s batchID p = Some cause.

(** The stream of a [GetBatch] call opens, declares its schema and then ends
    without a batch and without an error. *)
Definition get_empty (s : Client) (batchID : string) : Prop :=
  get_reaches s batchID ReadBatch /\ on_Batch s 0 = Ok None.

(** The identifier [ListBatches] reads off a flight info that has a
    descriptor. *)
Definition id_of (info : FlightInfo) : option string :=
  match FlightInfo_FlightDescriptor info with
  | Some d => Some (string_of_bytes (Cmd d))
  | None => None
  end.

(** The [ListFlights] stream of [s] delivers exactly [infos] and then fails
    to deliver: its next receive ends the stream or reports an error or
    never answers. *)
Definition delivers (s : Client) (infos : list FlightInfo) : Prop :=
  (forall k info, infos !! k = Some info -> on_FlightInfo s k = Ok info) /\
  (forall info, on_FlightInfo s (length infos) <> Ok info).

(** A peer that never responds: whatever the client does locally may go
    through, nothing is ever reported as failed, and no message of the peer
    ever arrives. *)
Definition quiet {A} (r : Reply A) : Prop :=
  match r with
  | Fail _ => False
  | _ => True
  end.

Definition unresponsive (s : Client) : Prop :=
  quiet (on_DoPut s) /\ (forall fd, quiet (on_Send s fd)) /\
  (forall b, quiet (on_Write s b)) /\ quiet (on_WriterClose s) /\
  on_PutResult s = Silent /\
  (forall t, quiet (on_DoGet s t)) /\ on_Schema s = Silent /\
  (forall k, on_Batch s k = Silent) /\
  (forall cr, quiet (on_ListFlights s cr)) /\
  (forall k, on_FlightInfo s k = Silent).

(** An error that reports an expired deadline. *)
Definition timeout_error (e : option error) : Prop :=
  exists err, e = Some err /\ Is err DeadlineExceeded = true.

(** The schema of the record [batch] refers to, when it refers to one. *)
Definition schema_of (h : gmap loc Object) (batch : arrow_Record) : Schema :=
  match batch with
  | Some l =>
      match h !! l with
      | Some o => batch_schema (contents o)
      | None => []
      end
  | None => []
  end.

(** The calls of a complete upload, in program order. *)
Definition put_script (ctx : Context) (schema : Schema) (batch : arrow_Record) : list Call :=
  [ call_DoPut ctx;
    call_Send (descriptor_frame put_descriptor);
    call_NewRecordWriter schema;
    call_Write batch;
    call_WriterClose;
    call_PutRecv ].

(** How far into [put_script] an upload gets that fails in phase [p]: a
    failed write is followed by the closing of the writer. *)
Definition put_len (p : PutPhase) : nat :=
  match p with
  | OpenStream => 1
  | SendDescriptor => 2
  | WriteBatch => 5
  | CloseWriter => 5
  | ReceiveAck => 6
  end.

(** The ways a call of [PutBatch] can end, with the number of calls of
    [put_script] it issues. *)
Inductive put_outcome (s : Client) (h : gmap loc Object) (batch : arrow_Record)
  : Outcome (string * option error) -> nat -> Prop :=
| put_failed (p : PutPhase) (cause : error) :
    put_fails s h batch p cause ->
    put_outcome s h batch
      (Done (""%string, Some (fmt.Errorf_w (put_tag p) cause))) (put_len p)
| put_panicked :
    put_reaches s h batch WriteBatch ->
    put_step s h batch WriteBatch = None ->
    put_outcome s h batch Panicked 2
| put_stored (result : PutResult) :
    put_reaches s h batch ReceiveAck ->
    on_PutResult s = Ok result ->
    put_outcome s h batch (Done (string_of_bytes (AppMetadata result), None)) 6.

(** The calls [GetBatch] issues after [DoGet] when phase [p] fails. *)
Definition get_tail (p : GetPhase) : list Call :=
  match p with
  | OpenGet => []
  | CreateReader => [call_NewRecordReader]
  | ReadBatch => [call_NewRecordReader; call_Next; call_Err; call_ReaderRelease]
  end.

(** The ways a call of [GetBatch] can end, with the calls it issues after
    [DoGet] and the heap it leaves. *)
Inductive get_outcome (s : Client) (batchID : string) (h : gmap loc Object)
  : Outcome (arrow_Record * option error) -> list Call -> gmap loc Object -> Prop :=
| get_failed (p : GetPhase) (cause : error) :
    get_fails s batchID p cause ->
    get_outcome s batchID h
      (Done (None, Some (fmt.Errorf_w (get_tag p) cause))) (get_tail p) h
| get_nothing :
    get_empty s batchID ->
    get_outcome s batchID h
      (Done (None, Some (fmt.Errorf "no batch received")))
      [call_NewRecordReader; call_Next; call_Err; call_ReaderRelease] h
| get_found (data : Batch) :
    get_reaches s batchID ReadBatch ->
    on_Batch s 0 = Ok (Some data) ->
    let b := fresh (dom h) in
    get_outcome s batchID h
      (Done (Some b, None))
      [call_NewRecordReader; call_Next; call_Record; call_Retain (Some b);
       call_ReaderRelease]
      (arrow.release_in b
         (alter arrow.retain_obj b (<[b := {| refCount := 1; contents := data |}]> h))).

Definition is_call_Next (c : Call) : bool :=
  match c with
  | call_Next => true
  | _ => false
  end.

(** The stream and the world [ListBatches] enters its loop with, once
    [ListFlights] has opened the stream. *)
Definition list_stream (c : FlightClient) (ctx : Context) (w : World) : Stream :=
  {| stream_client := client c; stream_ctx := call_ctx ctx w |}.

Definition list_opened (ctx : Context) (w : World) : World :=
  set_received (fun _ => 0%nat)
    (set_calls (fun cs => cs ++ [call_ListFlights (call_ctx ctx w) {| Expression := [] |}])
       (set_calls (fun cs => cs ++ [call_WithTimeout ctx (30 * Second)]) w)).

Definition is_dial (c : Call) : bool :=
  match c with
  | call_Dial _ _ => true
  | _ => false
  end.

(** The address [NewFlightClient] dials and the allocator it keeps. *)
Definition dial_target (config : FlightClientConfig) : string :=
  if String.eqb (Addr config) "" then "localhost:8080"%string else Addr config.

Definition dial_alloc (config : FlightClientConfig) : memory_Allocator :=
  match Allocator config with
  | None => GoAllocator
  | Some a => a
  end.

(** Kinds of calls the resource properties count. *)
Definition is_new_writer (c : Call) : bool :=
  match c with
  | call_NewRecordWriter _ => true
  | _ => false
  end.

Definition is_reader_release (c : Call) : bool :=
  match c with
  | call_ReaderRelease => true
  | _ => false
  end.

Definition is_cancel (c : Call) : bool :=
  match c with
  | call_cancel => true
  | _ => false
  end.

Definition is_info_recv (c : Call) : bool :=
  match c with
  | call_InfoRecv => true
  | _ => false
  end.

(** The reader of a [GetBatch] call gets created: the stream opens and its
    schema message arrives. *)
Definition reader_created (s : Client) (batchID : string) : Prop :=
  get_step s batchID OpenGet = None /\ get_step s batchID CreateReader = None.

(** A network on which the first channel comes up and the second, the
    Flight client's own, is refused. *)
Definition half_network : Network :=
  {| on_Dial := fun _ => Ok tt;
     on_NewClient := fun _ => Fail (LibraryError "connection refused");
     service_at := fun _ => mute_service;
     on_ConnClose := None |}.

(** A download stream that breaks right after its first batch. *)
Definition truncated_download : Client :=
  with_Batch
    (fun k =>
       match k with
       | O => Ok (Some sample_batch)
       | _ => Fail (LibraryError "connection reset")
       end)
    good_service.

(** A service whose listing cannot be opened. *)
Definition closed_listing : Client :=
  {| on_DoPut := on_DoPut good_service; on_Send := on_Send good_service;
     on_Write := on_Write good_service; on_WriterClose := on_WriterClose good_service;
     on_PutResult := on_PutResult good_service; on_DoGet := on_DoGet good_service;
     on_Schema := on_Schema good_service; on_Batch := on_Batch good_service;
     on_ListFlights := fun _ => Fail (LibraryError "unavailable");
     on_FlightInfo := on_FlightInfo good_service;
     on_ClientClose := on_ClientClose good_service |}.

(* ===================================================================== *)
(** ** Tactics: symbolic execution of client code                         *)
(* ===================================================================== *)

Arguments context.WithDeadline : simpl never.

(** Unfold the client functions and the library calls down to functions
    on worlds. *)
Ltac unfold_client :=
  unfold PutBatch, GetBatch, ListBatches, NewFlightClient, Close;
  unfold context.WithTimeout, context.cancel,
    flight.DoPut, flight.Send, flight.NewRecordWriter, flight.Write, flight.WriterClose,
    flight.PutRecv, flight.DoGet, flight.NewRecordReader, flight.Next, flight.Err,
    flight.Record_, flight.Release, flight.ListFlights, flight.InfoRecv,
    flight.NewClientWithMiddleware, flight.Close, grpc.Dial, grpc.Close, grpc.dialled,
    arrow.Schema_, arrow.Retain, arrow.release, arrow.alloc;
  unfold arrow.deref, await, log, flight.as_error;
  unfold defer, bind, modify, ret, get_world, panic, block.

(** One step: use the deadline of the context, or split on the reply, the
    pointer or the result the run is waiting on. *)
Ltac exec_step :=
  match goal with
  | H : Deadline ?c = Some _ |- context [Deadline ?c] => rewrite H
  | H : ?x = _ |- context [match ?x with _ => _ end] => rewrite H
  | |- context [match ?r with Ok _ => _ | Fail _ => _ | Silent => _ end] =>
      destruct r eqn:?
  | |- context [match ?r with Some _ => _ | None => _ end] => destruct r eqn:?
  | |- context [match ?r with inl _ => _ | inr _ => _ end] => destruct r eqn:?
  end.

Ltac exec := unfold_client; simpl; repeat (exec_step; simpl).

(** Rewrite with what the run has learnt about the replies. *)
Ltac use_replies :=
  repeat match goal with
         | H : on_DoPut _ = _ |- _ => rewrite H
         | H : on_Send _ _ = _ |- _ => rewrite H
         | H : on_Write _ _ = _ |- _ => rewrite H
         | H : on_WriterClose _ = _ |- _ => rewrite H
         | H : on_PutResult _ = _ |- _ => rewrite H
         | H : on_DoGet _ _ = _ |- _ => rewrite H
         | H : on_Schema _ = _ |- _ => rewrite H
         | H : on_Batch _ _ = _ |- _ => rewrite H
         | H : heap _ !! _ = _ |- _ => rewrite H
         end.

(** Every earlier phase succeeded; this phase failed. *)
Ltac close_reaches :=
  let q := fresh "q" in
  intros q; destruct q; cbn [put_index put_step get_index get_step]; intros; try lia;
  use_replies; reflexivity.

Ltac close_fails :=
  split; [ close_reaches
         | cbn [put_step get_step]; use_replies; reflexivity ].

(* ===================================================================== *)
(** * Theorems                                                            *)
(* ===================================================================== *)

(** ** Values *)

Lemma bytes_of_string_of_bytes (b : list byte) :
  bytes_of_string (string_of_bytes b) = b.
Proof. apply list_byte_of_string_of_list_byte. Qed.

Lemma string_of_bytes_of_string (s : string) :
  string_of_bytes (bytes_of_string s) = s.
Proof. apply string_of_list_byte_of_string. Qed.

Lemma Unwrap_Errorf_w (prefix : string) (e : error) :
  Unwrap (fmt.Errorf_w prefix e) = Some e.
Proof. reflexivity. Qed.

Lemma Is_Errorf_w (prefix : string) (e target : error) :
  Is e target = true -> Is (fmt.Errorf_w prefix e) target = true.
Proof.
  intros H. unfold fmt.Errorf_w. cbn [Is]. rewrite H.
  destruct (error_eqb_shallow _ _); reflexivity.
Qed.

(** Two messages built on diverging prefixes differ, whatever follows. *)
Lemma diverge_append (p q s t : string) :
  diverge p q = true -> p +:+ s <> q +:+ t.
Proof.
  revert q. induction p as [|a p IH]; intros [|b q]; simpl; try discriminate.
  destruct (Ascii.eqb_spec a b) as [->|Hab]; intros Hd [=].
  - eapply IH; eauto.
  - contradiction.
Qed.

Lemma put_tags_diverge (p q : PutPhase) :
  p <> q -> diverge (put_tag p) (put_tag q) = true.
Proof. destruct p, q; intros H; try reflexivity; contradiction. Qed.

(** ** Contexts *)

Lemma WithDeadline_spec (parent : Context) (d : Z) :
  exists t, Deadline (context.WithDeadline parent d) = Some t /\ t <= d /\
            (forall p, Deadline parent = Some p -> t <= p).
Proof.
  unfold context.WithDeadline. destruct parent as [[cur|]]; simpl.
  - destruct (Z.ltb_spec cur d); simpl.
    + exists cur. repeat split; try lia. intros p [= <-]. lia.
    + exists d. repeat split; try lia. intros p [= <-]. lia.
  - exists d. repeat split; try lia. discriminate.
Qed.

Lemma await_deadline {A} (ctx : Context) (r : Reply A) (t : Z) (w : World) :
  Deadline ctx = Some t -> await ctx r w = (Done (settled r), w).
Proof. intros H. unfold await. destruct r; simpl; try reflexivity. now rewrite H. Qed.

(** Without a deadline a silent peer blocks the caller. *)
Lemma await_Background {A} (w : World) :
  await context.Background (@Silent A) w = (Blocked, w).
Proof. reflexivity. Qed.

(** ** Uploads *)

Lemma PutBatch_run (c : FlightClient) (ctx : Context) (batch : arrow_Record) (w : World) :
  exists out n,
    put_outcome (client c) (heap w) batch out n /\
    fst (PutBatch c ctx batch w) = out /\
    calls (snd (PutBatch c ctx batch w)) =
      calls w ++ call_WithTimeout ctx (30 * Second)
        :: take n (put_script (call_ctx ctx w) (schema_of (heap w) batch) batch)
        ++ [call_cancel] /\
    heap (snd (PutBatch c ctx batch w)) = heap w.
Proof.
  unfold call_ctx.
  destruct (WithDeadline_spec ctx (now w + 30 * Second)) as (t & Hd & _).
  exec.
  all: repeat match goal with u : unit |- _ => destruct u end.
  all: rewrite <- !app_assoc; cbn [app schema_of]; use_replies.
  all: lazymatch goal with
       | |- context [Done (string_of_bytes _, None)] =>
           eexists _, _; split; [apply put_stored; [close_reaches | eassumption] |]
       | |- context [@Panicked] =>
           eexists _, _; split;
             [apply put_panicked; [close_reaches | cbn [put_step]; use_replies; reflexivity] |]
       | |- context [fmt.Errorf_w "failed to start DoPut stream: "] =>
           eexists _, _; split; [apply (put_failed _ _ _ OpenStream); close_fails |]
       | |- context [fmt.Errorf_w "failed to send descriptor: "] =>
           eexists _, _; split; [apply (put_failed _ _ _ SendDescriptor); close_fails |]
       | |- context [fmt.Errorf_w "failed to write batch to stream: "] =>
           eexists _, _; split; [apply (put_failed _ _ _ WriteBatch); close_fails |]
       | |- context [fmt.Errorf_w "failed to close writer: "] =>
           eexists _, _; split; [apply (put_failed _ _ _ CloseWriter); close_fails |]
       | |- context [fmt.Errorf_w "failed to receive result: "] =>
           eexists _, _; split; [apply (put_failed _ _ _ ReceiveAck); close_fails |]
       end.
  all: repeat split.
Qed.

Lemma put_index_inj (p q : PutPhase) : put_index p = put_index q -> p = q.
Proof. destruct p, q; simpl; intros; congruence. Qed.

(** At most one phase is the first to fail. *)
Lemma put_fails_inj s h batch p q cause cause' :
  put_fails s h batch p cause -> put_fails s h batch q cause' ->
  p = q /\ cause = cause'.
Proof.
  intros [Hp Hpe] [Hq Hqe].
  destruct (lt_eq_lt_dec (put_index p) (put_index q)) as [[Hlt|Heq]|Hgt].
  - specialize (Hq p Hlt). congruence.
  - apply put_index_inj in Heq. subst q. split; congruence.
  - specialize (Hp q Hgt). congruence.
Qed.

Lemma put_outcome_fails s h batch out n p cause :
  put_outcome s h batch out n -> put_fails s h batch p cause ->
  out = Done (""%string, Some (fmt.Errorf_w (put_tag p) cause)) /\ n = put_len p.
Proof.
  intros Ho Hf. destruct Ho as [q cause' Hq | Hr Hn | result Hr Hok].
  - destruct (put_fails_inj _ _ _ _ _ _ _ Hq Hf) as [-> ->]. auto.
  - exfalso. destruct Hf as [Hp Hpe].
    destruct (lt_eq_lt_dec (put_index p) (put_index WriteBatch)) as [[Hlt|Heq]|Hgt].
    + specialize (Hr p Hlt). congruence.
    + apply put_index_inj in Heq. subst p. congruence.
    + specialize (Hp WriteBatch Hgt). congruence.
  - exfalso. destruct Hf as [Hp Hpe].
    destruct (Nat.lt_ge_cases (put_index p) (put_index ReceiveAck)) as [Hlt|Hge].
    + specialize (Hr p Hlt). congruence.
    + destruct p; simpl in Hge; try lia. simpl in Hpe. rewrite Hok in Hpe. discriminate.
Qed.

Lemma put_outcome_error s h batch id err n :
  put_outcome s h batch (Done (id, Some err)) n ->
  id = ""%string /\ exists p cause,
    put_fails s h batch p cause /\ err = fmt.Errorf_w (put_tag p) cause /\ n = put_len p.
Proof. inversion 1; subst. split; [reflexivity | eauto]. Qed.

Lemma put_outcome_stored s h batch id n :
  put_outcome s h batch (Done (id, None)) n ->
  put_reaches s h batch ReceiveAck /\ n = 6%nat /\
  exists result, on_PutResult s = Ok result /\ id = string_of_bytes (AppMetadata result).
Proof. inversion 1; subst. eauto. Qed.

Lemma put_outcome_reaches_ack s h batch out n :
  put_outcome s h batch out n -> put_reaches s h batch ReceiveAck ->
  n = 6%nat /\
  out = match on_PutResult s with
        | Ok result => Done (string_of_bytes (AppMetadata result), None)
        | Fail e => Done (""%string, Some (fmt.Errorf_w (put_tag ReceiveAck) e))
        | Silent => Done (""%string, Some (fmt.Errorf_w (put_tag ReceiveAck) DeadlineExceeded))
        end.
Proof.
  intros Ho Hr. destruct Ho as [q cause [Hq Hqe] | Hq Hn | result Hq Hok].
  - destruct (Nat.lt_ge_cases (put_index q) (put_index ReceiveAck)) as [Hlt|Hge].
    + specialize (Hr q Hlt). congruence.
    + destruct q; simpl in Hge; try lia. split; [reflexivity|].
      simpl in Hqe. destruct (on_PutResult s); simpl in Hqe; congruence.
  - specialize (Hr WriteBatch ltac:(simpl; lia)). congruence.
  - rewrite Hok. auto.
Qed.

Lemma put_outcome_len s h batch out n :
  put_outcome s h batch out n -> (1 <= n <= 6)%nat.
Proof. destruct 1 as [[] | |]; simpl; lia. Qed.

Lemma put_outcome_len_cases s h batch out n :
  put_outcome s h batch out n -> n = 1%nat \/ n = 2%nat \/ n = 5%nat \/ n = 6%nat.
Proof. destruct 1 as [[] | |]; simpl; auto. Qed.

Lemma put_outcome_opened s h batch out n :
  put_outcome s h batch out n -> put_step s h batch OpenStream = Some None -> (2 <= n)%nat.
Proof.
  destruct 1 as [[] ? [Hr He] | |]; simpl; try lia.
  intros H. simpl in He. congruence.
Qed.

Lemma issued_app {A} (m : M A) (w : World) (l : list Call) :
  calls (snd (m w)) = calls w ++ l -> issued m w = l.
Proof. intros H. unfold issued. rewrite H. apply drop_app_length. Qed.

Lemma PutBatch_issued (c : FlightClient) (ctx : Context) (batch : arrow_Record) (w : World) :
  exists n,
    put_outcome (client c) (heap w) batch (fst (PutBatch c ctx batch w)) n /\
    issued (PutBatch c ctx batch) w =
      call_WithTimeout ctx (30 * Second)
        :: take n (put_script (call_ctx ctx w) (schema_of (heap w) batch) batch)
        ++ [call_cancel].
Proof.
  destruct (PutBatch_run c ctx batch w) as (out & n & Ho & <- & Hc & _).
  exists n. split; [assumption|]. now apply issued_app.
Qed.

(** A phase is carried out at most once in any prefix of the script. *)
Lemma put_script_once (p : PutPhase) pre ctx schema batch (n : nat) :
  put_call p pre = false ->
  (length (List.filter (put_call p)
     (pre :: take n (put_script ctx schema batch) ++ [call_cancel])) <= 1)%nat.
Proof.
  intros Hpre. simpl. rewrite Hpre.
  do 7 (destruct n as [|n]; [destruct p; simpl; lia|]).
  destruct p; simpl; lia.
Qed.

(** C7. Every failure path of [PutBatch] returns a tagged error: whichever
    of the five phases (stream open, descriptor send, write, writer close,
    acknowledgement receive) is the first to fail, with whatever cause (an
    expired deadline included), the call returns no identifier and an error
    whose message starts with that phase's tag and which wraps the cause;
    every error [PutBatch] returns arises this way; the messages of two
    different phases differ whatever the causes; and no phase's library call
    is issued more than once in a run, so nothing is retried. *)
Theorem PutBatch_failures_tagged (c : FlightClient) (ctx : Context)
    (batch : arrow_Record) (w : World) :
  (forall p cause,
      put_fails (client c) (heap w) batch p cause ->
      fst (PutBatch c ctx batch w)
        = Done (""%string, Some (fmt.Errorf_w (put_tag p) cause)) /\
      Unwrap (fmt.Errorf_w (put_tag p) cause) = Some cause) /\
  (forall id err,
      fst (PutBatch c ctx batch w) = Done (id, Some err) ->
      id = ""%string /\
      exists p cause, put_fails (client c) (heap w) batch p cause /\
                      err = fmt.Errorf_w (put_tag p) cause) /\
  (forall p q cause cause',
      p <> q ->
      Error (fmt.Errorf_w (put_tag p) cause) <> Error (fmt.Errorf_w (put_tag q) cause')) /\
  (forall p,
      (length (List.filter (put_call p) (issued (PutBatch c ctx batch) w)) <= 1)%nat).
Proof.
  destruct (PutBatch_issued c ctx batch w) as (n & Ho & Hi).
  repeat apply conj.
  - intros p cause Hf. split; [|reflexivity].
    now destruct (put_outcome_fails _ _ _ _ _ _ _ Ho Hf).
  - intros id err He. rewrite He in Ho.
    destruct (put_outcome_error _ _ _ _ _ _ Ho) as (-> & p & cause & Hf & -> & _).
    eauto.
  - intros p q cause cause' Hpq. simpl.
    apply diverge_append, put_tags_diverge, Hpq.
  - intros p. rewrite Hi. apply put_script_once. now destruct p.
Qed.

(** Once the stream is open and the descriptor sent, an upload of a live
    record goes on to the writer: it gets at least as far as closing it. *)
Lemma put_outcome_written s h batch out n :
  put_outcome s h batch out n ->
  put_step s h batch OpenStream = Some None ->
  put_step s h batch SendDescriptor = Some None ->
  is_Some (put_step s h batch WriteBatch) ->
  (5 <= n)%nat.
Proof.
  intros Ho Hopen Hsend [x Hx].
  destruct Ho as [[] cause [Hr He] | Hr Hn | result Hr Hok]; simpl; try lia; congruence.
Qed.

(** C3. Every call of [PutBatch] issues its library calls in one fixed
    order, stopping early only on a failure: after the stream is opened, the
    first thing sent on it is a frame that carries only a descriptor of type
    CMD with command bytes "put" (no header, body or metadata), and once the
    stream has opened that descriptor is always sent.  The record writer,
    which emits the schema frame and the data frames, comes only after it:
    whenever the open and the descriptor send succeed and the batch is a live
    record, the writer is created with the schema of that very batch, is
    given that batch to write, and is closed, in this order and right after
    the descriptor.  A run stops after the open, after the descriptor, after
    the writer's close or after the receive, nowhere else. *)
Theorem PutBatch_descriptor_first (c : FlightClient) (ctx : Context)
    (batch : arrow_Record) (w : World) :
  exists n : nat,
    (1 <= n <= 6)%nat /\
    issued (PutBatch c ctx batch) w =
      call_WithTimeout ctx (30 * Second)
        :: take n
             [ call_DoPut (call_ctx ctx w);
               call_Send
                 {| FlightData_FlightDescriptor :=
                      Some {| Type_ := DescriptorCMD;
                              Cmd := bytes_of_string "put";
                              Path := [] |};
                    DataHeader := [];
                    FlightData_AppMetadata := [];
                    DataBody := [] |};
               call_NewRecordWriter (schema_of (heap w) batch);
               call_Write batch;
               call_WriterClose;
               call_PutRecv ]
        ++ [call_cancel] /\
    (put_step (client c) (heap w) batch OpenStream = Some None -> (2 <= n)%nat) /\
    (forall l o, batch = Some l -> heap w !! l = Some o ->
                 schema_of (heap w) batch = batch_schema (contents o)) /\
    (n = 1 \/ n = 2 \/ n = 5 \/ n = 6)%nat /\
    (forall l o,
       batch = Some l -> heap w !! l = Some o ->
       put_step (client c) (heap w) batch OpenStream = Some None ->
       put_step (client c) (heap w) batch SendDescriptor = Some None ->
       (5 <= n)%nat /\
       exists rest,
         issued (PutBatch c ctx batch) w =
           [ call_WithTimeout ctx (30 * Second);
             call_DoPut (call_ctx ctx w);
             call_Send
               {| FlightData_FlightDescriptor :=
                    Some {| Type_ := DescriptorCMD;
                            Cmd := bytes_of_string "put";
                            Path := [] |};
                  DataHeader := [];
                  FlightData_AppMetadata := [];
                  DataBody := [] |};
             call_NewRecordWriter (batch_schema (contents o));
             call_Write (Some l);
             call_WriterClose ] ++ rest).
Proof.
  destruct (PutBatch_issued c ctx batch w) as (n & Ho & Hi).
  exists n. repeat apply conj.
  - apply (put_outcome_len _ _ _ _ _ Ho).
  - apply (put_outcome_len _ _ _ _ _ Ho).
  - exact Hi.
  - apply (put_outcome_opened _ _ _ _ _ Ho).
  - intros l o -> Hl. simpl. now rewrite Hl.
  - apply (put_outcome_len_cases _ _ _ _ _ Ho).
  - intros l o -> Hl Hopen Hsend.
    assert (Hn : (5 <= n)%nat).
    { apply (put_outcome_written _ _ _ _ _ Ho Hopen Hsend).
      simpl. rewrite Hl. eauto. }
    split; [exact Hn|].
    rewrite Hi. unfold put_script. cbn [schema_of]. rewrite Hl.
    destruct (put_outcome_len_cases _ _ _ _ _ Ho) as [-> | [-> | [-> | ->]]];
      try lia; eexists; reflexivity.
Qed.

(** C2. Once the writer has been closed without error, [PutBatch] receives
    exactly once on the stream, right after the close, and what it returns is
    decided by that one receive: an acknowledgement yields the identifier
    whose bytes are exactly the frame's application metadata, with no error;
    a failed receive (an error, or silence until the deadline) yields an
    error and the empty identifier.  An identifier is returned in no other
    way, and no run receives more than once. *)
Theorem PutBatch_acknowledgement (c : FlightClient) (ctx : Context)
    (batch : arrow_Record) (w : World) :
  (put_reaches (client c) (heap w) batch ReceiveAck ->
     (exists pre,
        issued (PutBatch c ctx batch) w
          = pre ++ [call_WriterClose; call_PutRecv; call_cancel] /\
        List.filter (put_call ReceiveAck) pre = []) /\
     match on_PutResult (client c) with
     | Ok result =>
         fst (PutBatch c ctx batch w)
           = Done (string_of_bytes (AppMetadata result), None) /\
         bytes_of_string (string_of_bytes (AppMetadata result)) = AppMetadata result
     | Fail e =>
         fst (PutBatch c ctx batch w)
           = Done (""%string, Some (fmt.Errorf_w "failed to receive result: " e))
     | Silent =>
         fst (PutBatch c ctx batch w)
           = Done (""%string,
                   Some (fmt.Errorf_w "failed to receive result: " DeadlineExceeded))
     end) /\
  (forall id,
      fst (PutBatch c ctx batch w) = Done (id, None) ->
      put_reaches (client c) (heap w) batch ReceiveAck /\
      exists result, on_PutResult (client c) = Ok result /\
                     bytes_of_string id = AppMetadata result) /\
  (length (List.filter (put_call ReceiveAck) (issued (PutBatch c ctx batch) w)) <= 1)%nat.
Proof.
  destruct (PutBatch_issued c ctx batch w) as (n & Ho & Hi).
  repeat apply conj.
  - intros Hr.
    destruct (put_outcome_reaches_ack _ _ _ _ _ Ho Hr) as [-> Hout].
    split.
    + rewrite Hi. eexists [_; _; _; _; _]. split; reflexivity.
    + rewrite Hout. destruct (on_PutResult (client c)); simpl; try reflexivity.
      split; [reflexivity | apply bytes_of_string_of_bytes].
  - intros id He. rewrite He in Ho.
    destruct (put_outcome_stored _ _ _ _ _ Ho) as (Hr & _ & result & Hok & ->).
    split; [assumption|]. exists result. split; [assumption|].
    apply bytes_of_string_of_bytes.
  - rewrite Hi. now apply put_script_once.
Qed.

(** ** Downloads *)

Lemma GetBatch_run (c : FlightClient) (ctx : Context) (batchID : string) (w : World) :
  exists out tail h',
    get_outcome (client c) batchID (heap w) out tail h' /\
    fst (GetBatch c ctx batchID w) = out /\
    calls (snd (GetBatch c ctx batchID w)) =
      calls w ++ call_WithTimeout ctx (30 * Second)
        :: call_DoGet (call_ctx ctx w) {| Ticket_ := bytes_of_string batchID |}
        :: tail ++ [call_cancel] /\
    heap (snd (GetBatch c ctx batchID w)) = h'.
Proof.
  unfold call_ctx.
  destruct (WithDeadline_spec ctx (now w + 30 * Second)) as (t & Hd & _).
  exec.
  all: repeat match goal with u : unit |- _ => destruct u end.
  all: rewrite <- !app_assoc; cbn [app].
  all: lazymatch goal with
       | |- context [Done (Some _, None)] =>
           eexists _, _, _; split; [apply get_found; [close_reaches | eassumption] |]
       | |- context [fmt.Errorf "no batch received"] =>
           eexists _, _, _; split; [apply get_nothing; split; [close_reaches | assumption] |]
       | |- context [fmt.Errorf_w "error reading batch: "] =>
           eexists _, _, _; split; [apply (get_failed _ _ _ ReadBatch); close_fails |]
       | |- context [fmt.Errorf_w "failed to create record reader: "] =>
           eexists _, _, _; split; [apply (get_failed _ _ _ CreateReader); close_fails |]
       | |- context [fmt.Errorf_w "failed to start DoGet stream: "] =>
           eexists _, _, _; split; [apply (get_failed _ _ _ OpenGet); close_fails |]
       end.
  all: repeat split.
Qed.

(** The reference counting behind [GetBatch]: a record decoded by the
    reader (one owner), retained by the client and then given up by the
    reader is left with exactly one owner. *)
Lemma retain_then_release (h : gmap loc Object) (b : loc) (data : Batch) :
  arrow.release_in b
    (alter arrow.retain_obj b (<[b := {| refCount := 1; contents := data |}]> h))
  = <[b := {| refCount := 1; contents := data |}]> h.
Proof.
  unfold arrow.release_in.
  rewrite lookup_alter_eq, lookup_insert_eq. simpl.
  rewrite alter_insert_eq, insert_insert_eq. reflexivity.
Qed.

(** The order matters: were the reader to give the record up first, the
    buffers would be freed, and retaining afterwards would not bring them
    back. *)
Lemma release_then_retain (h : gmap loc Object) (b : loc) (data : Batch) :
  alter arrow.retain_obj b
    (arrow.release_in b (<[b := {| refCount := 1; contents := data |}]> h)) !! b = None.
Proof.
  unfold arrow.release_in.
  rewrite lookup_insert_eq. simpl.
  rewrite lookup_alter_eq, lookup_delete_eq. reflexivity.
Qed.

Lemma fresh_loc_unused (h : gmap loc Object) : h !! fresh (dom h) = None.
Proof. apply not_elem_of_dom, is_fresh. Qed.

Lemma GetBatch_issued (c : FlightClient) (ctx : Context) (batchID : string) (w : World) :
  exists tail,
    get_outcome (client c) batchID (heap w) (fst (GetBatch c ctx batchID w)) tail
      (heap (snd (GetBatch c ctx batchID w))) /\
    issued (GetBatch c ctx batchID) w =
      call_WithTimeout ctx (30 * Second)
        :: call_DoGet (call_ctx ctx w) {| Ticket_ := bytes_of_string batchID |}
        :: tail ++ [call_cancel].
Proof.
  destruct (GetBatch_run c ctx batchID w) as (out & tail & h' & Ho & <- & Hc & <-).
  exists tail. split; [assumption|]. now apply issued_app.
Qed.

Lemma get_index_inj (p q : GetPhase) : get_index p = get_index q -> p = q.
Proof. destruct p, q; simpl; intros; congruence. Qed.

Lemma get_fails_inj s batchID p q cause cause' :
  get_fails s batchID p cause -> get_fails s batchID q cause' ->
  p = q /\ cause = cause'.
Proof.
  intros [Hp Hpe] [Hq Hqe].
  destruct (lt_eq_lt_dec (get_index p) (get_index q)) as [[Hlt|Heq]|Hgt].
  - specialize (Hq p Hlt). congruence.
  - apply get_index_inj in Heq. subst q. split; congruence.
  - specialize (Hp q Hgt). congruence.
Qed.

(** A failing phase excludes the stream's reaching its first batch
    message and answering it with a batch or with a clean end. *)
Lemma get_fails_not_read s batchID p cause (r : option Batch) :
  get_fails s batchID p cause -> get_reaches s batchID ReadBatch ->
  on_Batch s 0 = Ok r -> False.
Proof.
  intros [Hp Hpe] Hr Hok.
  destruct (Nat.lt_ge_cases (get_index p) (get_index ReadBatch)) as [Hlt|Hge].
  - specialize (Hr p Hlt). congruence.
  - destruct p; simpl in Hge; try lia. simpl in Hpe. rewrite Hok in Hpe. discriminate.
Qed.

Lemma get_outcome_fails s batchID h out tail h' p cause :
  get_outcome s batchID h out tail h' -> get_fails s batchID p cause ->
  out = Done (None, Some (fmt.Errorf_w (get_tag p) cause)) /\ tail = get_tail p /\ h' = h.
Proof.
  intros Ho Hf. destruct Ho as [q cause' Hq | [Hr Hn] | data Hr Hok].
  - destruct (get_fails_inj _ _ _ _ _ _ Hq Hf) as [-> ->]. auto.
  - destruct (get_fails_not_read _ _ _ _ _ Hf Hr Hn).
  - destruct (get_fails_not_read _ _ _ _ _ Hf Hr Hok).
Qed.

Lemma get_outcome_empty s batchID h out tail h' :
  get_outcome s batchID h out tail h' -> get_empty s batchID ->
  out = Done (None, Some (fmt.Errorf "no batch received")) /\ h' = h.
Proof.
  intros Ho [Hr Hn]. destruct Ho as [q cause' Hq | _ | data _ Hok].
  - destruct (get_fails_not_read _ _ _ _ _ Hq Hr Hn).
  - auto.
  - congruence.
Qed.

Lemma get_outcome_found s batchID h r tail h' :
  get_outcome s batchID h (Done (r, None)) tail h' ->
  exists data,
    get_reaches s batchID ReadBatch /\ on_Batch s 0 = Ok (Some data) /\
    r = Some (fresh (dom h)) /\
    tail = [call_NewRecordReader; call_Next; call_Record;
            call_Retain (Some (fresh (dom h))); call_ReaderRelease] /\
    h' = arrow.release_in (fresh (dom h))
           (alter arrow.retain_obj (fresh (dom h))
              (<[fresh (dom h) := {| refCount := 1; contents := data |}]> h)).
Proof. inversion 1; subst. eauto 10. Qed.

Lemma get_outcome_error s batchID h r err tail h' :
  get_outcome s batchID h (Done (r, Some err)) tail h' -> r = None /\ h' = h.
Proof. inversion 1; subst; auto. Qed.

(** C1. Whenever [GetBatch] succeeds, the batch it returns is the record
    the reader decoded; the client's [Retain] on it is issued before the
    reader's [Release] (which runs as the function returns); the heap the
    call leaves is the one obtained by decoding (one owner), retaining and
    only then releasing, so the record is still there with exactly one
    owner, the caller, and every other record is untouched. *)
Theorem GetBatch_retains_before_release (c : FlightClient) (ctx : Context)
    (batchID : string) (w : World) (r : arrow_Record) :
  fst (GetBatch c ctx batchID w) = Done (r, None) ->
  exists b data,
    r = Some b /\
    heap w !! b = None /\
    issued (GetBatch c ctx batchID) w =
      [ call_WithTimeout ctx (30 * Second);
        call_DoGet (call_ctx ctx w) {| Ticket_ := bytes_of_string batchID |};
        call_NewRecordReader; call_Next; call_Record;
        call_Retain (Some b); call_ReaderRelease; call_cancel ] /\
    heap (snd (GetBatch c ctx batchID w)) =
      arrow.release_in b
        (alter arrow.retain_obj b
           (<[b := {| refCount := 1; contents := data |}]> (heap w))) /\
    heap (snd (GetBatch c ctx batchID w)) =
      <[b := {| refCount := 1; contents := data |}]> (heap w) /\
    valid (heap (snd (GetBatch c ctx batchID w))) b.
Proof.
  intros He.
  destruct (GetBatch_issued c ctx batchID w) as (tail & Ho & Hi).
  rewrite He in Ho.
  destruct (get_outcome_found _ _ _ _ _ _ Ho) as (data & _ & _ & -> & -> & Hh).
  exists (fresh (dom (heap w))), data.
  repeat apply conj.
  - reflexivity.
  - apply fresh_loc_unused.
  - exact Hi.
  - exact Hh.
  - rewrite Hh. apply retain_then_release.
  - rewrite Hh, retain_then_release.
    eexists. split; [apply lookup_insert_eq | simpl; lia].
Qed.

(** A successful [GetBatch] leaves a reader that has consumed one record
    batch message of the stream. *)
Lemma GetBatch_reads (c : FlightClient) (ctx : Context) (batchID : string) (w : World)
    (r : arrow_Record) :
  fst (GetBatch c ctx batchID w) = Done (r, None) ->
  rs_read (rstate (snd (GetBatch c ctx batchID w))) = 1%nat.
Proof.
  destruct (WithDeadline_spec ctx (now w + 30 * Second)) as (t & Hd & _).
  exec; intros; try discriminate; reflexivity.
Qed.

(** C4. Every call of [GetBatch] opens its stream with a ticket whose bytes
    are those of the identifier it was given, unchanged (converting them back
    gives the identifier again).  When it succeeds, what it returns is the
    record decoded from the first record batch message of the stream:
    [Next] is called exactly once, the reader has consumed one message, and
    nothing further is read before the reader is released. *)
Theorem GetBatch_first_batch (c : FlightClient) (ctx : Context)
    (batchID : string) (w : World) :
  (exists tail,
     issued (GetBatch c ctx batchID) w =
       call_WithTimeout ctx (30 * Second)
         :: call_DoGet (call_ctx ctx w) {| Ticket_ := bytes_of_string batchID |}
         :: tail) /\
  string_of_bytes (Ticket_ {| Ticket_ := bytes_of_string batchID |}) = batchID /\
  (forall r,
     fst (GetBatch c ctx batchID w) = Done (r, None) ->
     exists b data,
       r = Some b /\
       on_Batch (client c) 0 = Ok (Some data) /\
       heap w !! b = None /\
       contents <$> heap (snd (GetBatch c ctx batchID w)) !! b = Some data /\
       List.filter is_call_Next (issued (GetBatch c ctx batchID) w) = [call_Next] /\
       rs_read (rstate (snd (GetBatch c ctx batchID w))) = 1%nat).
Proof.
  destruct (GetBatch_issued c ctx batchID w) as (tail & Ho & Hi).
  repeat apply conj.
  - eauto.
  - apply string_of_bytes_of_string.
  - intros r He. rewrite He in Ho.
    destruct (get_outcome_found _ _ _ _ _ _ Ho) as (data & _ & Hok & -> & -> & Hh).
    exists (fresh (dom (heap w))), data.
    repeat apply conj.
    + reflexivity.
    + exact Hok.
    + apply fresh_loc_unused.
    + rewrite Hh, retain_then_release, lookup_insert_eq. reflexivity.
    + rewrite Hi. reflexivity.
    + eapply GetBatch_reads, He.
Qed.

Lemma get_tag_diverges (p : GetPhase) : diverge (get_tag p) "no batch received" = true.
Proof. destruct p; reflexivity. Qed.

(** C5. When the stream of a [GetBatch] call opens, declares its schema and
    ends without a batch and without an error, the call returns no batch and
    the plain error "no batch received".  When opening the stream, creating
    the reader or decoding the first batch fails with some cause, the call
    returns no batch and an error that wraps that cause under the phase's
    tag; such an error differs from the "no batch received" error, which
    wraps nothing, as a value and in its message.  A call that returns an
    error never returns a batch. *)
Theorem GetBatch_errors (c : FlightClient) (ctx : Context) (batchID : string) (w : World) :
  (get_empty (client c) batchID ->
     fst (GetBatch c ctx batchID w)
       = Done (None, Some (errorString "no batch received"))) /\
  (forall p cause,
     get_fails (client c) batchID p cause ->
     fst (GetBatch c ctx batchID w)
       = Done (None, Some (fmt.Errorf_w (get_tag p) cause)) /\
     Unwrap (fmt.Errorf_w (get_tag p) cause) = Some cause /\
     Unwrap (errorString "no batch received") = None /\
     fmt.Errorf_w (get_tag p) cause <> errorString "no batch received" /\
     Error (fmt.Errorf_w (get_tag p) cause) <> Error (errorString "no batch received")) /\
  (forall r err,
     fst (GetBatch c ctx batchID w) = Done (r, Some err) -> r = None).
Proof.
  destruct (GetBatch_issued c ctx batchID w) as (tail & Ho & Hi).
  repeat apply conj.
  - intros Hem. now destruct (get_outcome_empty _ _ _ _ _ _ Ho Hem).
  - intros p cause Hf. repeat apply conj.
    + now destruct (get_outcome_fails _ _ _ _ _ _ _ _ Ho Hf).
    + reflexivity.
    + reflexivity.
    + discriminate.
    + simpl. intros H.
      apply (diverge_append (get_tag p) "no batch received" (Error cause) "");
        [apply get_tag_diverges | exact H].
  - intros r err He. rewrite He in Ho.
    now destruct (get_outcome_error _ _ _ _ _ _ _ Ho).
Qed.

(** ** Listings *)

Section Loop.

Variable st : Stream.
Variable t : Z.
Hypothesis Hdeadline : Deadline (stream_ctx st) = Some t.

Lemma InfoRecv_run (w : World) :
  flight.InfoRecv st w =
    match on_FlightInfo (stream_client st) (received w) with
    | Ok info =>
        (Done (inl info),
         set_received S (set_calls (fun cs => cs ++ [call_InfoRecv]) w))
    | Fail e => (Done (inr e), set_calls (fun cs => cs ++ [call_InfoRecv]) w)
    | Silent =>
        (Done (inr DeadlineExceeded), set_calls (fun cs => cs ++ [call_InfoRecv]) w)
    end.
Proof.
  unfold flight.InfoRecv, await, log, bind, modify, ret, get_world. simpl.
  destruct (on_FlightInfo _ _); simpl; try reflexivity.
  rewrite Hdeadline. reflexivity.
Qed.

Lemma loop_step (fuel : nat) (acc : list string) (w : World) :
  ListBatches_loop (S fuel) st acc w =
    match on_FlightInfo (stream_client st) (received w) with
    | Ok info =>
        match FlightInfo_FlightDescriptor info with
        | Some d =>
            ListBatches_loop fuel st (acc ++ [string_of_bytes (Cmd d)])
              (set_received S (set_calls (fun cs => cs ++ [call_InfoRecv]) w))
        | None =>
            (Panicked, set_received S (set_calls (fun cs => cs ++ [call_InfoRecv]) w))
        end
    | _ => (Done acc, set_calls (fun cs => cs ++ [call_InfoRecv]) w)
    end.
Proof.
  cbn [ListBatches_loop]. unfold bind at 1. rewrite InfoRecv_run.
  destruct (on_FlightInfo _ _) as [info| |]; try reflexivity.
  destruct (FlightInfo_FlightDescriptor info); reflexivity.
Qed.

(** The loop on a stream that delivers [infos], each with a descriptor,
    and then fails to deliver. *)
Lemma loop_collects (infos : list FlightInfo) (ids : list string) :
  Forall2 (fun info id => id_of info = Some id) infos ids ->
  forall (fuel : nat) (acc : list string) (w : World),
    (forall k info, infos !! k = Some info ->
       on_FlightInfo (stream_client st) (received w + k) = Ok info) ->
    (forall info,
       on_FlightInfo (stream_client st) (received w + length infos) <> Ok info) ->
    (length infos < fuel)%nat ->
    fst (ListBatches_loop fuel st acc w) = Done (acc ++ ids) /\
    calls (snd (ListBatches_loop fuel st acc w))
      = calls w ++ replicate (S (length infos)) call_InfoRecv.
Proof.
  induction 1 as [|info id infos ids Hid _ IH]; intros fuel acc w Hok Hend Hfuel.
  - destruct fuel as [|fuel]; [simpl in Hfuel; lia|].
    rewrite loop_step. simpl in Hend. rewrite Nat.add_0_r in Hend.
    rewrite app_nil_r.
    destruct (on_FlightInfo _ _) as [info| |]; simpl; auto.
    now destruct (Hend info).
  - destruct fuel as [|fuel]; [simpl in Hfuel; lia|].
    rewrite loop_step.
    pose proof (Hok 0%nat info eq_refl) as H0. rewrite Nat.add_0_r in H0. rewrite H0.
    unfold id_of in Hid.
    destruct (FlightInfo_FlightDescriptor info) as [d|]; [|discriminate].
    injection Hid as <-.
    destruct (IH fuel (acc ++ [string_of_bytes (Cmd d)])
                (set_received S (set_calls (fun cs => cs ++ [call_InfoRecv]) w)))
      as [Hr Hc].
    + intros k i Hk. simpl. rewrite <- Nat.add_succ_r. now apply Hok.
    + intros i. simpl. rewrite <- Nat.add_succ_r. apply Hend.
    + simpl in Hfuel. lia.
    + rewrite Hr, Hc. simpl. rewrite <- !app_assoc. auto.
Qed.

(** The loop panics exactly when it receives a flight info without a
    descriptor, every info before it having one. *)
Lemma loop_panics (fuel : nat) :
  forall (acc : list string) (w : World),
    fst (ListBatches_loop fuel st acc w) = Panicked <->
    exists k info,
      (k < fuel)%nat /\
      (forall j, (j < k)%nat ->
         exists i, on_FlightInfo (stream_client st) (received w + j) = Ok i /\
                   FlightInfo_FlightDescriptor i <> None) /\
      on_FlightInfo (stream_client st) (received w + k) = Ok info /\
      FlightInfo_FlightDescriptor info = None.
Proof.
  induction fuel as [|fuel IH]; intros acc w.
  - simpl. split; [discriminate|]. intros (k & _ & Hk & _). lia.
  - rewrite loop_step.
    destruct (on_FlightInfo (stream_client st) (received w)) as [info| |] eqn:E.
    + destruct (FlightInfo_FlightDescriptor info) as [d|] eqn:Ed.
      * rewrite IH. simpl. split.
        -- intros (k & i & Hk & Hbefore & Hi & Hnil).
           exists (S k), i. repeat apply conj.
           ++ lia.
           ++ intros [|j] Hj.
              ** exists info. rewrite Nat.add_0_r. split; congruence.
              ** rewrite Nat.add_succ_r. apply Hbefore. lia.
           ++ now rewrite Nat.add_succ_r.
           ++ exact Hnil.
        -- intros (k & i & Hk & Hbefore & Hi & Hnil).
           destruct k as [|k].
           ++ rewrite Nat.add_0_r in Hi. congruence.
           ++ exists k, i. repeat apply conj.
              ** lia.
              ** intros j Hj. rewrite <- Nat.add_succ_r. apply Hbefore. lia.
              ** now rewrite <- Nat.add_succ_r.
              ** exact Hnil.
      * simpl. split; [intros _|reflexivity].
        exists 0%nat, info. rewrite Nat.add_0_r.
        repeat apply conj; auto; try lia.
    + simpl. split; [discriminate|].
      intros ([|k] & i & Hk & Hbefore & Hi & Hnil).
      * rewrite Nat.add_0_r in Hi. congruence.
      * destruct (Hbefore 0%nat ltac:(lia)) as (i0 & Hi0 & _).
        rewrite Nat.add_0_r in Hi0. congruence.
    + simpl. split; [discriminate|].
      intros ([|k] & i & Hk & Hbefore & Hi & Hnil).
      * rewrite Nat.add_0_r in Hi. congruence.
      * destruct (Hbefore 0%nat ltac:(lia)) as (i0 & Hi0 & _).
        rewrite Nat.add_0_r in Hi0. congruence.
Qed.

(** The loop never blocks: every receive is made under a deadline. *)
Lemma loop_never_blocks (fuel : nat) :
  forall (acc : list string) (w : World),
    fst (ListBatches_loop fuel st acc w) <> Blocked.
Proof.
  induction fuel as [|fuel IH]; intros acc w; [discriminate|].
  rewrite loop_step.
  destruct (on_FlightInfo _ _) as [info| |]; try discriminate.
  destruct (FlightInfo_FlightDescriptor info); [apply IH | discriminate].
Qed.

End Loop.

Lemma call_ctx_deadline (ctx : Context) (w : World) :
  exists t, Deadline (call_ctx ctx w) = Some t /\ t <= now w + 30 * Second /\
            (forall p, Deadline ctx = Some p -> t <= p).
Proof. apply WithDeadline_spec. Qed.

(** [ListBatches] once the stream has opened: the loop, the deferred
    [cancel], and a nil error. *)
Lemma ListBatches_opened (fuel : nat) (c : FlightClient) (ctx : Context) (w : World) :
  settled (on_ListFlights (client c) {| Expression := [] |}) = inl tt ->
  ListBatches fuel c ctx w =
    match ListBatches_loop fuel (list_stream c ctx w) [] (list_opened ctx w) with
    | (Done ids, w') => (Done (ids, None), set_calls (fun cs => cs ++ [call_cancel]) w')
    | (Panicked, w') => (Panicked, set_calls (fun cs => cs ++ [call_cancel]) w')
    | (Blocked, w') => (Blocked, w')
    | (OutOfFuel, w') => (OutOfFuel, w')
    end.
Proof.
  intros Hopen. unfold list_stream, list_opened, call_ctx.
  destruct (WithDeadline_spec ctx (now w + 30 * Second)) as (t & Hd & _).
  unfold_client. simpl.
  destruct (on_ListFlights _ _) as [[]| |]; try discriminate. simpl.
  destruct (ListBatches_loop _ _ _ _) as [[ids| | |] w']; reflexivity.
Qed.

(** [ListBatches] when the stream fails to open. *)
Lemma ListBatches_closed (fuel : nat) (c : FlightClient) (ctx : Context) (w : World)
    (cause : error) :
  settled (on_ListFlights (client c) {| Expression := [] |}) = inr cause ->
  fst (ListBatches fuel c ctx w)
    = Done ([], Some (fmt.Errorf_w "failed to start ListFlights stream: " cause)) /\
  issued (ListBatches fuel c ctx) w =
    [ call_WithTimeout ctx (30 * Second);
      call_ListFlights (call_ctx ctx w) {| Expression := [] |};
      call_cancel ].
Proof.
  intros Hopen. unfold call_ctx.
  destruct (WithDeadline_spec ctx (now w + 30 * Second)) as (t & Hd & _).
  split; [|apply issued_app]; unfold_client; simpl.
  all: destruct (on_ListFlights _ _) as [[]| |]; try discriminate; simpl.
  all: try rewrite Hd; simpl; injection Hopen as <-.
  all: try reflexivity.
  all: rewrite <- !app_assoc; reflexivity.
Qed.

Lemma list_opened_received (ctx : Context) (w : World) :
  received (list_opened ctx w) = 0%nat.
Proof. reflexivity. Qed.

Lemma list_opened_calls (ctx : Context) (w : World) :
  calls (list_opened ctx w) =
    calls w ++ [call_WithTimeout ctx (30 * Second);
                call_ListFlights (call_ctx ctx w) {| Expression := [] |}].
Proof. unfold list_opened. simpl. now rewrite <- app_assoc. Qed.

(** C6. Once the [ListFlights] stream is open, if it delivers the flight
    infos [infos], each carrying a descriptor, and then fails to deliver
    (a clean end, an error of any kind, or silence until the deadline),
    [ListBatches] returns one identifier per info received, each the command
    bytes of the info's descriptor, in order, and a nil error.  It receives
    once per info and once more for the failure, and not again: whatever the
    stream would have delivered after the failure is never asked for. *)
Theorem ListBatches_collects (fuel : nat) (c : FlightClient) (ctx : Context) (w : World)
    (infos : list FlightInfo) (ids : list string) :
  settled (on_ListFlights (client c) {| Expression := [] |}) = inl tt ->
  delivers (client c) infos ->
  Forall2 (fun info id => id_of info = Some id) infos ids ->
  (length infos < fuel)%nat ->
  fst (ListBatches fuel c ctx w) = Done (ids, None) /\
  length ids = length infos /\
  issued (ListBatches fuel c ctx) w =
    call_WithTimeout ctx (30 * Second)
      :: call_ListFlights (call_ctx ctx w) {| Expression := [] |}
      :: replicate (S (length infos)) call_InfoRecv ++ [call_cancel].
Proof.
  intros Hopen [Hok Hend] Hids Hfuel.
  destruct (call_ctx_deadline ctx w) as (t & Hd & _).
  destruct (loop_collects (list_stream c ctx w) t Hd infos ids Hids fuel []
              (list_opened ctx w)) as [Hr Hc]; auto.
  rewrite list_opened_calls in Hc.
  unfold issued. rewrite (ListBatches_opened fuel c ctx w Hopen).
  destruct (ListBatches_loop _ _ _ _) as [o w'].
  cbn [fst snd] in Hr, Hc. subst o. cbn [fst snd app]. repeat apply conj.
  - reflexivity.
  - symmetry. eapply Forall2_length, Hids.
  - cbn [calls set_calls]. rewrite Hc, <- !app_assoc.
    now rewrite drop_app_length.
Qed.

(** C10. [ListBatches] reads the command bytes through the descriptor
    pointer of each flight info it receives, with no nil guard.  It panics
    exactly when the stream has opened and, before any receive fails, a
    flight info without a descriptor arrives; so it is free of panics only
    when every info received carries a descriptor.  Such a stream exists for
    every caller: on it the call does not return an error, it panics. *)
Theorem ListBatches_nil_descriptor (fuel : nat) (c : FlightClient) (ctx : Context)
    (w : World) :
  (fst (ListBatches fuel c ctx w) = Panicked <->
     settled (on_ListFlights (client c) {| Expression := [] |}) = inl tt /\
     exists k info,
       (k < fuel)%nat /\
       (forall j, (j < k)%nat ->
          exists i, on_FlightInfo (client c) j = Ok i /\
                    FlightInfo_FlightDescriptor i <> None) /\
       on_FlightInfo (client c) k = Ok info /\
       FlightInfo_FlightDescriptor info = None) /\
  (exists s : Client, fst (ListBatches 1 (client_of s) ctx w) = Panicked).
Proof.
  destruct (call_ctx_deadline ctx w) as (t & Hd & _).
  assert (Hiff : forall n (c' : FlightClient),
    fst (ListBatches n c' ctx w) = Panicked <->
    settled (on_ListFlights (client c') {| Expression := [] |}) = inl tt /\
    exists k info,
      (k < n)%nat /\
      (forall j, (j < k)%nat ->
         exists i, on_FlightInfo (client c') j = Ok i /\
                   FlightInfo_FlightDescriptor i <> None) /\
      on_FlightInfo (client c') k = Ok info /\
      FlightInfo_FlightDescriptor info = None).
  { intros n c'.
    destruct (settled (on_ListFlights (client c') {| Expression := [] |}))
      as [[]|cause] eqn:Hopen.
    - rewrite (ListBatches_opened n c' ctx w Hopen).
      pose proof (loop_panics (list_stream c' ctx w) t Hd n [] (list_opened ctx w)) as Hp.
      rewrite list_opened_received in Hp. simpl in Hp.
      destruct (ListBatches_loop _ _ _ _) as [[ids| | |] w']; simpl in *.
      + split; [discriminate|]. intros [_ H]. apply Hp in H. discriminate.
      + split; [intros _|reflexivity]. split; [reflexivity|]. now apply Hp.
      + split; [discriminate|]. intros [_ H]. apply Hp in H. discriminate.
      + split; [discriminate|]. intros [_ H]. apply Hp in H. discriminate.
    - destruct (ListBatches_closed n c' ctx w cause Hopen) as [Hr _].
      rewrite Hr. split; [discriminate|]. intros [H _]. discriminate. }
  split; [apply Hiff|].
  exists (with_FlightInfo (fun _ => Ok info_bare) good_service).
  apply Hiff. split; [reflexivity|].
  exists 0%nat, info_bare. repeat apply conj; try reflexivity; try lia.
Qed.

(** ** Deadlines *)

Lemma quiet_settled {A} (r : Reply A) (e : error) :
  quiet r -> flight.as_error (settled r) = Some e -> e = DeadlineExceeded.
Proof. destruct r; simpl; intros Hq He; [discriminate | contradiction | congruence]. Qed.

Lemma silent_settled {A} (r : Reply A) :
  r = Silent -> flight.as_error (settled r) = Some DeadlineExceeded.
Proof. intros ->. reflexivity. Qed.

Lemma unresponsive_put_step s h batch p e :
  unresponsive s -> put_step s h batch p = Some (Some e) -> e = DeadlineExceeded.
Proof.
  intros (HP & HS & HW & HC & HR & _) He.
  destruct p; simpl in He.
  - injection He as He. eapply quiet_settled; [|exact He]; auto.
  - injection He as He. eapply quiet_settled; [|exact He]; auto.
  - destruct batch as [l|]; [|discriminate].
    destruct (h !! l) as [o|]; [|discriminate].
    injection He as He. eapply quiet_settled; [|exact He]; auto.
  - injection He as He. eapply quiet_settled; [|exact He]; auto.
  - rewrite HR in He. simpl in He. congruence.
Qed.

Lemma unresponsive_get_step s batchID p e :
  unresponsive s -> get_step s batchID p = Some e -> e = DeadlineExceeded.
Proof.
  intros (_ & _ & _ & _ & _ & HG & HS & HB & _) He.
  destruct p; simpl in He.
  - eapply quiet_settled; [|exact He]; auto.
  - rewrite HS in He. simpl in He. congruence.
  - rewrite HB in He. simpl in He. congruence.
Qed.

Lemma PutBatch_never_blocks c ctx batch w : fst (PutBatch c ctx batch w) <> Blocked.
Proof.
  destruct (PutBatch_issued c ctx batch w) as (n & Ho & _).
  destruct Ho; discriminate.
Qed.

Lemma GetBatch_never_blocks c ctx batchID w : fst (GetBatch c ctx batchID w) <> Blocked.
Proof.
  destruct (GetBatch_issued c ctx batchID w) as (tail & Ho & _).
  destruct Ho; discriminate.
Qed.

Lemma loop_calls_extend (st : Stream) (t : Z) (fuel : nat) :
  Deadline (stream_ctx st) = Some t ->
  forall acc w, exists l, calls (snd (ListBatches_loop fuel st acc w)) = calls w ++ l.
Proof.
  intros Hd. induction fuel as [|fuel IH]; intros acc w.
  - exists []. simpl. now rewrite app_nil_r.
  - rewrite (loop_step st t Hd).
    destruct (on_FlightInfo _ _) as [info| |]; simpl; eauto.
    destruct (FlightInfo_FlightDescriptor info); simpl; eauto.
    destruct (IH (acc ++ [string_of_bytes (Cmd f)])
                (set_received S (set_calls (fun cs => cs ++ [call_InfoRecv]) w)))
      as [l Hl].
    rewrite Hl. simpl. rewrite <- app_assoc. eauto.
Qed.

Lemma ListBatches_never_blocks fuel c ctx w : fst (ListBatches fuel c ctx w) <> Blocked.
Proof.
  destruct (call_ctx_deadline ctx w) as (t & Hd & _).
  destruct (settled (on_ListFlights (client c) {| Expression := [] |}))
    as [[]|cause] eqn:Hopen.
  - rewrite (ListBatches_opened fuel c ctx w Hopen).
    pose proof (loop_never_blocks (list_stream c ctx w) t Hd fuel [] (list_opened ctx w)).
    destruct (ListBatches_loop _ _ _ _) as [[ids| | |] w']; simpl in *; congruence.
  - destruct (ListBatches_closed fuel c ctx w cause Hopen) as [-> _]. discriminate.
Qed.

Lemma ListBatches_issued fuel c ctx w :
  exists rest,
    issued (ListBatches fuel c ctx) w =
      call_WithTimeout ctx (30 * Second)
        :: call_ListFlights (call_ctx ctx w) {| Expression := [] |} :: rest.
Proof.
  destruct (call_ctx_deadline ctx w) as (t & Hd & _).
  destruct (settled (on_ListFlights (client c) {| Expression := [] |}))
    as [[]|cause] eqn:Hopen.
  - destruct (loop_calls_extend (list_stream c ctx w) t fuel Hd [] (list_opened ctx w))
      as [l Hl].
    rewrite list_opened_calls in Hl.
    unfold issued. rewrite (ListBatches_opened fuel c ctx w Hopen).
    destruct (ListBatches_loop _ _ _ _) as [[ids| | |] w']; cbn [fst snd calls set_calls] in *.
    all: rewrite Hl, <- ?app_assoc, drop_app_length; simpl; eauto.
  - destruct (ListBatches_closed fuel c ctx w cause Hopen) as [_ ->]. eauto.
Qed.

(** What [ListBatches] makes of a stream that opens and then stays
    silent: the deadline ends the first receive, the loop stops, and the
    call returns an empty list and a nil error. *)
Lemma ListBatches_silent_stream fuel c ctx w :
  on_ListFlights (client c) {| Expression := [] |} = Ok tt ->
  on_FlightInfo (client c) 0 = Silent ->
  (0 < fuel)%nat ->
  fst (ListBatches fuel c ctx w) = Done ([], None).
Proof.
  intros Hopen Hsilent Hfuel.
  destruct (call_ctx_deadline ctx w) as (t & Hd & _).
  assert (Hs : settled (on_ListFlights (client c) {| Expression := [] |}) = inl tt)
    by now rewrite Hopen.
  destruct (loop_collects (list_stream c ctx w) t Hd [] [] (List.Forall2_nil _) fuel []
              (list_opened ctx w)) as [Hr _].
  - intros k info Hk. discriminate.
  - intros info. simpl. rewrite Hsilent. discriminate.
  - exact Hfuel.
  - rewrite (ListBatches_opened fuel c ctx w Hs).
    destruct (ListBatches_loop _ _ _ _) as [o w']. simpl in Hr. now subst o.
Qed.

(** C8, as the code has it.  [PutBatch], [GetBatch] and [ListBatches] each
    derive their context from the caller's with a 30 second timeout: its
    deadline exists whatever the caller supplied, is at most 30 seconds
    away, and is no later than the caller's own; the stream of each call is
    opened under that context.  No call waits for ever on a library call
    (the loop of [ListBatches] goes on only while flight infos keep
    arriving).  Against a peer that never responds, [PutBatch] (given a
    record) and [GetBatch] return an error that wraps the deadline error, and
    so does [ListBatches] when the opening of its stream is what goes
    unanswered; when its stream opens and then stays silent, [ListBatches]
    returns an empty list and a nil error. *)
Theorem calls_run_under_deadline (fuel : nat) (c : FlightClient) (ctx : Context)
    (batch : arrow_Record) (batchID : string) (w : World) :
  (exists t,
     Deadline (call_ctx ctx w) = Some t /\
     t <= now w + 30 * 1000000000 /\
     (forall p, Deadline ctx = Some p -> t <= p)) /\
  ((exists rest,
      issued (PutBatch c ctx batch) w =
        call_WithTimeout ctx (30 * Second) :: call_DoPut (call_ctx ctx w) :: rest) /\
   (exists rest,
      issued (GetBatch c ctx batchID) w =
        call_WithTimeout ctx (30 * Second)
          :: call_DoGet (call_ctx ctx w) {| Ticket_ := bytes_of_string batchID |} :: rest) /\
   (exists rest,
      issued (ListBatches fuel c ctx) w =
        call_WithTimeout ctx (30 * Second)
          :: call_ListFlights (call_ctx ctx w) {| Expression := [] |} :: rest)) /\
  (fst (PutBatch c ctx batch w) <> Blocked /\
   fst (GetBatch c ctx batchID w) <> Blocked /\
   fst (ListBatches fuel c ctx w) <> Blocked) /\
  (unresponsive (client c) ->
     (is_Some (put_step (client c) (heap w) batch WriteBatch) ->
        exists err, fst (PutBatch c ctx batch w) = Done (""%string, Some err) /\
                    Is err DeadlineExceeded = true) /\
     (exists err, fst (GetBatch c ctx batchID w) = Done (None, Some err) /\
                  Is err DeadlineExceeded = true) /\
     (on_ListFlights (client c) {| Expression := [] |} = Silent ->
        exists err, fst (ListBatches fuel c ctx w) = Done ([], Some err) /\
                    Is err DeadlineExceeded = true) /\
     (on_ListFlights (client c) {| Expression := [] |} = Ok tt ->
        (0 < fuel)%nat ->
        fst (ListBatches fuel c ctx w) = Done ([], None))).
Proof.
  split; [apply call_ctx_deadline|].
  split; [repeat apply conj|].
  - destruct (PutBatch_issued c ctx batch w) as (n & Ho & Hi).
    rewrite Hi. destruct (put_outcome_len _ _ _ _ _ Ho) as [Hn _].
    destruct n as [|n]; [lia|]. simpl. eauto.
  - destruct (GetBatch_issued c ctx batchID w) as (tail & _ & Hi).
    rewrite Hi. eauto.
  - apply ListBatches_issued.
  - split; [repeat apply conj|].
    + apply PutBatch_never_blocks.
    + apply GetBatch_never_blocks.
    + apply ListBatches_never_blocks.
    + intros Hun. repeat apply conj.
      * intros [x Hx].
        destruct (PutBatch_issued c ctx batch w) as (n & Ho & _).
        destruct Ho as [p cause [Hr He] | Hr Hn | result Hr Hok].
        -- apply (unresponsive_put_step _ _ _ _ _ Hun) in He. subst cause.
           eexists. split; [reflexivity|]. now apply Is_Errorf_w.
        -- congruence.
        -- destruct Hun as (_ & _ & _ & _ & HR & _). congruence.
      * destruct (GetBatch_issued c ctx batchID w) as (tail & Ho & _).
        assert (Hsch : get_step (client c) batchID CreateReader = Some DeadlineExceeded).
        { destruct Hun as (_ & _ & _ & _ & _ & _ & HS & _). simpl. now rewrite HS. }
        destruct Ho as [p cause [Hr He] | [Hr Hn] | data Hr Hok].
        -- apply (unresponsive_get_step _ _ _ _ Hun) in He. subst cause.
           eexists. split; [reflexivity|]. now apply Is_Errorf_w.
        -- specialize (Hr CreateReader ltac:(simpl; lia)). congruence.
        -- specialize (Hr CreateReader ltac:(simpl; lia)). congruence.
      * intros Hsilent.
        destruct (ListBatches_closed fuel c ctx w DeadlineExceeded) as [Hr _].
        { now rewrite Hsilent. }
        eexists. split; [exact Hr|]. now apply Is_Errorf_w.
      * intros Hopen Hfuel. apply ListBatches_silent_stream; auto.
        now destruct Hun as (_ & _ & _ & _ & _ & _ & _ & _ & _ & HF).
Qed.

(** C8 as stated fails: the peer [deaf_service] never responds, and
    [ListBatches], whose stream opens and then stays silent, returns no
    error at all, so no timeout error; hence it is not true that every
    [ListBatches] call against a peer that never responds returns one. *)
Lemma ListBatches_timeout_swallowed :
  unresponsive deaf_service /\
  fst (ListBatches 1 (client_of deaf_service) context.Background world0) = Done ([], None) /\
  ~ (forall fuel c ctx w,
       unresponsive (client c) -> (0 < fuel)%nat ->
       exists ids e, fst (ListBatches fuel c ctx w) = Done (ids, e) /\ timeout_error e).
Proof.
  assert (Hquiet : unresponsive deaf_service).
  { unfold unresponsive, deaf_service, quiet. simpl. repeat apply conj; auto. }
  assert (Hrun : fst (ListBatches 1 (client_of deaf_service) context.Background world0)
                 = Done ([], None)) by (vm_compute; reflexivity).
  split; [exact Hquiet | split; [exact Hrun |]].
  intros Hall.
  destruct (Hall 1%nat (client_of deaf_service) context.Background world0 Hquiet
              ltac:(lia)) as (ids & e & He & err & Herr & _).
  rewrite Hrun in He. injection He as _ <-. discriminate.
Qed.

(** ** Connecting *)

(** [NewFlightClient] once the first channel has come up: what happens is
    decided by the Flight client's own channel. *)
Lemma NewFlightClient_second_stage (net : Network) (config : FlightClientConfig) (w : World) :
  on_Dial net (dial_target config) = Ok tt ->
  match settled (on_NewClient net (dial_target config)) with
  | inl _ =>
      fst (NewFlightClient net config w)
        = Done (Some {| client := service_at net (dial_target config);
                        addr := dial_target config;
                        allocator := Some (dial_alloc config);
                        conn := {| conn_target := dial_target config |} |}, None) /\
      calls (snd (NewFlightClient net config w))
        = calls w ++ [ call_Dial (dial_target config) dial_opts;
                       call_NewClientWithMiddleware (dial_target config) dial_opts ]
  | inr cause =>
      fst (NewFlightClient net config w)
        = Done (None, Some (fmt.Errorf_w "failed to create Flight client: " cause)) /\
      calls (snd (NewFlightClient net config w))
        = calls w ++ [ call_Dial (dial_target config) dial_opts;
                       call_NewClientWithMiddleware (dial_target config) dial_opts;
                       call_ConnClose ]
  end.
Proof.
  unfold dial_target, dial_alloc. destruct config as [a al].
  unfold_client. unfold dial_opts. cbn [Addr Allocator].
  destruct (String.eqb a ""); destruct al as [al|]; cbn [Addr Allocator]; simpl.
  all: intros ->; simpl.
  all: destruct (on_NewClient net _) as [[]| |]; simpl.
  all: rewrite <- ?app_assoc; split; reflexivity.
Qed.

(** C9. [NewFlightClient] dials the configured address, or
    "localhost:8080" when that is empty, with the options insecure
    credentials, [WithBlock] and [WithTimeout] of 5 seconds, so the dial
    waits for the channel and gives up after 5 seconds.  When the dial goes
    unanswered (timeout) or is refused, the call returns no client and an
    error wrapping the cause, having dialled once: nothing is tried again.
    When the dial and the creation of the Flight client succeed, the call
    returns a client, with no error, that carries the address dialled and
    the configured allocator, or the Go allocator when none was configured;
    no client is returned in any other way.  No call returns both an error
    and a client, and none blocks for ever. *)
Theorem NewFlightClient_defaults_and_dial (net : Network) (config : FlightClientConfig)
    (w : World) :
  let target := if String.eqb (Addr config) "" then "localhost:8080"%string
                else Addr config in
  let alloc := match Allocator config with
               | None => GoAllocator
               | Some a => a
               end in
  let opts := [ WithTransportCredentials insecure_NewCredentials;
                WithBlock; WithTimeout (5 * 1000000000) ] in
  (exists rest, issued (NewFlightClient net config) w = call_Dial target opts :: rest) /\
  (grpc.blocking opts = true /\ grpc.dial_timeout opts = Some 5000000000) /\
  (on_Dial net target = Silent ->
     fst (NewFlightClient net config w)
       = Done (None,
               Some (fmt.Errorf_w ("failed to connect to Flight server at "
                                     +:+ target +:+ ": ") DeadlineExceeded)) /\
     issued (NewFlightClient net config) w = [call_Dial target opts]) /\
  (forall e,
     on_Dial net target = Fail e ->
     fst (NewFlightClient net config w)
       = Done (None,
               Some (fmt.Errorf_w ("failed to connect to Flight server at "
                                     +:+ target +:+ ": ") e)) /\
     issued (NewFlightClient net config) w = [call_Dial target opts]) /\
  (forall fc,
     fst (NewFlightClient net config w) = Done (Some fc, None) ->
     addr fc = target /\ allocator fc = Some alloc /\ conn_target (conn fc) = target) /\
  (forall fc err,
     fst (NewFlightClient net config w) = Done (fc, Some err) -> fc = None) /\
  fst (NewFlightClient net config w) <> Blocked /\
  (length (List.filter is_dial (issued (NewFlightClient net config) w)) <= 1)%nat /\
  (on_Dial net target = Ok tt ->
   on_NewClient net target = Ok tt ->
   fst (NewFlightClient net config w)
     = Done (Some {| client := service_at net target;
                     addr := target;
                     allocator := Some alloc;
                     conn := {| conn_target := target |} |}, None)) /\
  (forall fc err,
     fst (NewFlightClient net config w) = Done (Some fc, err) ->
     err = None /\ on_Dial net target = Ok tt /\ on_NewClient net target = Ok tt /\
     fc = {| client := service_at net target;
             addr := target;
             allocator := Some alloc;
             conn := {| conn_target := target |} |}).
Proof.
  intros target alloc opts.
  assert (Hrun :
    match on_Dial net target with
    | Ok _ =>
        exists out rest,
          NewFlightClient net config w
            = (out, set_calls (fun _ => calls w ++ call_Dial target opts :: rest) w) /\
          List.filter is_dial rest = [] /\ out <> Blocked /\
          (forall fc err, out = Done (fc, Some err) -> fc = None) /\
          (forall fc, out = Done (Some fc, None) ->
             addr fc = target /\ allocator fc = Some alloc /\
             conn_target (conn fc) = target)
    | Fail e =>
        NewFlightClient net config w
          = (Done (None, Some (fmt.Errorf_w ("failed to connect to Flight server at "
                                               +:+ target +:+ ": ") e)),
             set_calls (fun _ => calls w ++ [call_Dial target opts]) w)
    | Silent =>
        NewFlightClient net config w
          = (Done (None, Some (fmt.Errorf_w ("failed to connect to Flight server at "
                                               +:+ target +:+ ": ") DeadlineExceeded)),
             set_calls (fun _ => calls w ++ [call_Dial target opts]) w)
    end).
  { subst target alloc opts. unfold_client. unfold dial_opts, Second.
    destruct config as [a al]. cbn [Addr Allocator].
    destruct (String.eqb a ""); destruct al as [al|]; cbn [Addr Allocator].
    all: simpl; destruct (on_Dial net _) as [[]| |]; simpl; try reflexivity.
    all: destruct (on_NewClient net _) as [[]| |]; simpl.
    all: eexists _, _; (split; [unfold set_calls; simpl; rewrite <- ?app_assoc; reflexivity|]).
    all: repeat apply conj; try reflexivity; try discriminate.
    all: try (intros fc err [= <- _]; reflexivity).
    all: try (intros fc [= <-]; repeat apply conj; reflexivity).
    all: intros; discriminate. }
  assert (Hissued : exists rest,
            issued (NewFlightClient net config) w = call_Dial target opts :: rest /\
            List.filter is_dial rest = []).
  { destruct (on_Dial net target) as [[]| |].
    - destruct Hrun as (out & rest & Hr & Hf & _). exists rest.
      split; [apply issued_app; now rewrite Hr | exact Hf].
    - exists []. split; [apply issued_app; now rewrite Hrun | reflexivity].
    - exists []. split; [apply issued_app; now rewrite Hrun | reflexivity]. }
  assert (Hsecond :
    on_Dial net target = Ok tt ->
    match settled (on_NewClient net target) with
    | inl _ =>
        fst (NewFlightClient net config w)
          = Done (Some {| client := service_at net target; addr := target;
                          allocator := Some alloc;
                          conn := {| conn_target := target |} |}, None)
    | inr cause =>
        fst (NewFlightClient net config w)
          = Done (None, Some (fmt.Errorf_w "failed to create Flight client: " cause))
    end).
  { intros Hd. pose proof (NewFlightClient_second_stage net config w Hd) as H.
    change (dial_target config) with target in H.
    change (dial_alloc config) with alloc in H.
    destruct (settled (on_NewClient net target)); now destruct H. }
  repeat apply conj.
  - destruct Hissued as (rest & Hi & _). eauto.
  - reflexivity.
  - reflexivity.
  - intros Hs. rewrite Hs in Hrun. split.
    + now rewrite Hrun.
    + apply issued_app. now rewrite Hrun.
  - intros e He. rewrite He in Hrun. split.
    + now rewrite Hrun.
    + apply issued_app. now rewrite Hrun.
  - intros fc Hfc. destruct (on_Dial net target) as [[]| |].
    + destruct Hrun as (out & rest & Hr & _ & _ & _ & Hok).
      rewrite Hr in Hfc. now apply Hok.
    + rewrite Hrun in Hfc. discriminate.
    + rewrite Hrun in Hfc. discriminate.
  - intros fc err Hfc. destruct (on_Dial net target) as [[]| |].
    + destruct Hrun as (out & rest & Hr & _ & _ & Herr & _).
      rewrite Hr in Hfc. eapply Herr, Hfc.
    + rewrite Hrun in Hfc. now injection Hfc as <- _.
    + rewrite Hrun in Hfc. now injection Hfc as <- _.
  - destruct (on_Dial net target) as [[]| |].
    + destruct Hrun as (out & rest & Hr & _ & Hnb & _). now rewrite Hr.
    + now rewrite Hrun.
    + now rewrite Hrun.
  - destruct Hissued as (rest & -> & Hf). simpl. rewrite Hf. simpl. lia.
  - intros Hd Hn. specialize (Hsecond Hd). now rewrite Hn in Hsecond.
  - intros fc err Hfc. destruct (on_Dial net target) as [[]| |] eqn:Hd.
    + specialize (Hsecond eq_refl).
      destruct (on_NewClient net target) as [[]| |]; simpl in Hsecond;
        rewrite Hsecond in Hfc; try discriminate.
      injection Hfc as <- <-. auto.
    + rewrite Hrun in Hfc. discriminate.
    + rewrite Hrun in Hfc. discriminate.
Qed.

(** ** Frame properties *)

(** X1. [PutBatch] only reads the batch it uploads: whatever happens, it
    leaves every record, the uploaded one included, as it found it (neither
    released nor retained nor changed). *)
Theorem PutBatch_leaves_records (c : FlightClient) (ctx : Context)
    (batch : arrow_Record) (w : World) :
  heap (snd (PutBatch c ctx batch w)) = heap w.
Proof.
  now destruct (PutBatch_run c ctx batch w) as (out & n & _ & _ & _ & Hh).
Qed.


(** ** Connecting, continued *)

(** X3. When the channel dialled first comes up and the Flight client's
    own channel then fails (an error, or no answer within the 5 seconds),
    [NewFlightClient] closes the first channel before it returns, and
    returns no client and the cause wrapped as "failed to create Flight
    client: ...".  Its calls are the dial, the creation of the Flight client
    and the close, in that order. *)
Theorem NewFlightClient_closes_conn_on_failure (net : Network)
    (config : FlightClientConfig) (w : World) (cause : error) :
  on_Dial net (dial_target config) = Ok tt ->
  settled (on_NewClient net (dial_target config)) = inr cause ->
  fst (NewFlightClient net config w)
    = Done (None, Some (fmt.Errorf_w "failed to create Flight client: " cause)) /\
  issued (NewFlightClient net config) w
    = [ call_Dial (dial_target config) dial_opts;
        call_NewClientWithMiddleware (dial_target config) dial_opts;
        call_ConnClose ].
Proof.
  intros Hdial Hnew.
  pose proof (NewFlightClient_second_stage net config w Hdial) as H.
  rewrite Hnew in H. destruct H as [Hr Hc].
  split; [exact Hr | now apply issued_app].
Qed.

(** X4. A client that [NewFlightClient] returned and that is then closed
    with [Close]: two channels were opened to the same address with the same
    options, one by [grpc.Dial] and one by the Flight client, and [Close]
    closes both, the Flight client first.  What [Close] returns is the result
    of closing the dialled channel; the result of closing the Flight client
    is dropped. *)
Theorem NewFlightClient_then_Close (net : Network) (config : FlightClientConfig)
    (w w1 : World) (fc : FlightClient) :
  NewFlightClient net config w = (Done (Some fc, None), w1) ->
  fst (Close net fc w1) = Done (on_ConnClose net) /\
  calls (snd (Close net fc w1))
    = calls w ++ [ call_Dial (dial_target config) dial_opts;
                   call_NewClientWithMiddleware (dial_target config) dial_opts;
                   call_ClientClose;
                   call_ConnClose ].
Proof.
  intros Hnew.
  assert (Hc : calls w1 = calls w ++ [ call_Dial (dial_target config) dial_opts;
                 call_NewClientWithMiddleware (dial_target config) dial_opts ]).
  { revert Hnew. unfold dial_target. destruct config as [a al].
    unfold_client. unfold dial_opts. cbn [Addr Allocator].
    destruct (String.eqb a ""); destruct al as [al|]; cbn [Addr Allocator]; simpl.
    all: destruct (on_Dial net _) as [[]| |]; simpl; try discriminate.
    all: destruct (on_NewClient net _) as [[]| |]; simpl; try discriminate.
    all: intros [= _ <-]; simpl; now rewrite <- app_assoc. }
  unfold Close, flight.Close, grpc.Close, log, bind, modify, ret. simpl.
  split; [reflexivity|]. rewrite Hc, <- !app_assoc. reflexivity.
Qed.

(** ** Uploads, continued *)

(** X5. In every run of [PutBatch] a record writer that was created is
    closed, exactly once (also when the write failed), no writer is closed
    that was not created, and the deferred [cancel] of the context is the
    last call of the run and the only [cancel]. *)
Theorem PutBatch_closes_writer (c : FlightClient) (ctx : Context)
    (batch : arrow_Record) (w : World) :
  let tr := issued (PutBatch c ctx batch) w in
  length (List.filter (put_call CloseWriter) tr) = length (List.filter is_new_writer tr) /\
  (length (List.filter is_new_writer tr) <= 1)%nat /\
  last tr = Some call_cancel /\
  length (List.filter is_cancel tr) = 1%nat.
Proof.
  intros tr. subst tr.
  destruct (PutBatch_issued c ctx batch w) as (n & Ho & ->).
  destruct (put_outcome_len_cases _ _ _ _ _ Ho) as [-> | [-> | [-> | ->]]];
    simpl; repeat apply conj; try reflexivity; lia.
Qed.

(** X6. [PutBatch] does not check its batch before it uses the network: with
    a nil batch, once the stream has opened and the descriptor has been
    sent, the call panics (at [batch.Schema()]), having issued exactly the
    open and the send, and the deferred [cancel] still runs.  With a batch
    that refers to a live record it never panics. *)
Theorem PutBatch_nil_batch (c : FlightClient) (ctx : Context) (w : World) :
  (put_step (client c) (heap w) None OpenStream = Some None ->
   put_step (client c) (heap w) None SendDescriptor = Some None ->
   fst (PutBatch c ctx None w) = Panicked /\
   issued (PutBatch c ctx None) w =
     [ call_WithTimeout ctx (30 * Second);
       call_DoPut (call_ctx ctx w);
       call_Send (descriptor_frame put_descriptor);
       call_cancel ]) /\
  (forall l o, heap w !! l = Some o -> fst (PutBatch c ctx (Some l) w) <> Panicked).
Proof.
  split.
  - intros Hopen Hsend.
    destruct (PutBatch_issued c ctx None w) as (n & Ho & Hi).
    rewrite Hi. clear Hi.
    destruct Ho as [p cause [Hr He] | Hr Hn | result Hr Hok].
    + exfalso. destruct p; simpl in He; try congruence.
      * simpl in Hopen. congruence.
      * simpl in Hsend. congruence.
      * specialize (Hr WriteBatch ltac:(simpl; lia)). discriminate.
      * specialize (Hr WriteBatch ltac:(simpl; lia)). discriminate.
    + split; reflexivity.
    + specialize (Hr WriteBatch ltac:(simpl; lia)). discriminate.
  - intros l o Hl.
    destruct (PutBatch_issued c ctx (Some l) w) as (n & Ho & _).
    destruct Ho as [p cause _ | _ Hn | result _ _]; try discriminate.
    simpl in Hn. rewrite Hl in Hn. discriminate.
Qed.

(** ** Downloads, continued *)

(** X7. [GetBatch] always returns, whatever the service does: it never
    panics (it retains only a record that [Next] has just produced) and
    never waits for ever.  It returns exactly one of a batch and an error,
    and the deferred [cancel] of the context is the last call of the run and
    the only [cancel]. *)
Theorem GetBatch_always_returns (c : FlightClient) (ctx : Context)
    (batchID : string) (w : World) :
  exists r err,
    fst (GetBatch c ctx batchID w) = Done (r, err) /\
    (r = None <-> err <> None) /\
    last (issued (GetBatch c ctx batchID) w) = Some call_cancel /\
    length (List.filter is_cancel (issued (GetBatch c ctx batchID) w)) = 1%nat.
Proof.
  destruct (GetBatch_issued c ctx batchID w) as (tail & Ho & ->).
  destruct Ho as [p cause _ | _ | data _ _ b]; eexists _, _.
  - split; [reflexivity|]. repeat apply conj.
    + intros _. discriminate.
    + reflexivity.
    + now destruct p.
    + now destruct p.
  - split; [reflexivity|]. repeat apply conj; try reflexivity.
    intros _. discriminate.
  - split; [reflexivity|]. repeat apply conj; try reflexivity.
    + discriminate.
    + intros H. now destruct H.
Qed.

(** X8. The reader of a [GetBatch] call is released exactly when it was
    created: if the stream opens and its schema arrives, [reader.Release()]
    runs once, as the last call before [cancel], on every path (a batch, an
    empty stream, a decode error); if the stream or the reader could not be
    set up, no release is issued. *)
Theorem GetBatch_releases_reader (c : FlightClient) (ctx : Context)
    (batchID : string) (w : World) :
  (reader_created (client c) batchID ->
     exists body,
       issued (GetBatch c ctx batchID) w = body ++ [call_ReaderRelease; call_cancel] /\
       List.filter is_reader_release body = []) /\
  (~ reader_created (client c) batchID ->
     List.filter is_reader_release (issued (GetBatch c ctx batchID) w) = []).
Proof.
  destruct (GetBatch_issued c ctx batchID w) as (tail & Ho & ->).
  assert (Hreach : get_reaches (client c) batchID ReadBatch ->
                   reader_created (client c) batchID).
  { intros Hr. split; apply Hr; simpl; lia. }
  destruct Ho as [p cause [Hr He] | [Hr _] | data Hr _ b].
  - destruct p.
    + split; [intros [H _]; congruence | reflexivity].
    + split; [intros [_ H]; congruence | reflexivity].
    + split; [intros _ | intros H; destruct (H (Hreach Hr))].
      eexists [_; _; _; _; _]. split; reflexivity.
  - split; [intros _ | intros H; destruct (H (Hreach Hr))].
    eexists [_; _; _; _; _]. split; reflexivity.
  - split; [intros _ | intros H; destruct (H (Hreach Hr))].
    eexists [_; _; _; _; _; _]. split; reflexivity.
Qed.

(** ** Listings, continued *)

(** X9. The only error [ListBatches] ever returns is the failure to open
    the stream: it returns an error exactly when [ListFlights] fails, the
    error then wraps the cause as "failed to start ListFlights stream: ...",
    the list is empty and nothing is received.  Once the stream is open no
    error is returned, whatever the stream does. *)
Theorem ListBatches_error_only_on_open (fuel : nat) (c : FlightClient) (ctx : Context)
    (w : World) :
  (forall ids err,
     fst (ListBatches fuel c ctx w) = Done (ids, Some err) <->
     ids = [] /\
     exists cause,
       settled (on_ListFlights (client c) {| Expression := [] |}) = inr cause /\
       err = fmt.Errorf_w "failed to start ListFlights stream: " cause) /\
  (forall cause,
     settled (on_ListFlights (client c) {| Expression := [] |}) = inr cause ->
     List.filter is_info_recv (issued (ListBatches fuel c ctx) w) = []).
Proof.
  split.
  - intros ids err.
    destruct (settled (on_ListFlights (client c) {| Expression := [] |}))
      as [[]|cause] eqn:Hopen.
    + rewrite (ListBatches_opened fuel c ctx w Hopen).
      destruct (ListBatches_loop _ _ _ _) as [[ids'| | |] w']; simpl.
      all: split; [discriminate | intros (_ & cause & Hc & _); discriminate].
    + destruct (ListBatches_closed fuel c ctx w cause Hopen) as [-> _].
      split.
      * intros [= <- <-]. eauto.
      * intros (-> & cause' & [= <-] & ->). reflexivity.
  - intros cause Hopen.
    destruct (ListBatches_closed fuel c ctx w cause Hopen) as [_ ->]. reflexivity.
Qed.

Lemma loop_heap (st : Stream) (t : Z) (fuel : nat) :
  Deadline (stream_ctx st) = Some t ->
  forall acc w, heap (snd (ListBatches_loop fuel st acc w)) = heap w.
Proof.
  intros Hd. induction fuel as [|fuel IH]; intros acc w; [reflexivity|].
  rewrite (loop_step st t Hd).
  destruct (on_FlightInfo _ _) as [info| |]; try reflexivity.
  destruct (FlightInfo_FlightDescriptor info); [|reflexivity].
  now rewrite IH.
Qed.

(** X10. [ListBatches] never touches a record: whatever the stream
    delivers and however the call ends, the heap of reference-counted
    records is the one it started from. *)
Theorem ListBatches_leaves_records (fuel : nat) (c : FlightClient) (ctx : Context)
    (w : World) :
  heap (snd (ListBatches fuel c ctx w)) = heap w.
Proof.
  destruct (call_ctx_deadline ctx w) as (t & Hd & _).
  destruct (settled (on_ListFlights (client c) {| Expression := [] |}))
    as [[]|cause] eqn:Hopen.
  - rewrite (ListBatches_opened fuel c ctx w Hopen).
    pose proof (loop_heap (list_stream c ctx w) t fuel Hd [] (list_opened ctx w)) as Hh.
    destruct (ListBatches_loop _ _ _ _) as [[ids| | |] w']; exact Hh.
  - revert Hopen. unfold call_ctx in Hd. unfold_client. simpl.
    destruct (on_ListFlights _ _) as [[]| |]; simpl; try discriminate; try reflexivity.
    rewrite Hd. reflexivity.
Qed.

(** X11. Whenever [ListBatches] comes to an end, by a return or by the
    panic on a flight info without descriptor, the deferred [cancel] of the
    context has run: it is the last call of the run. *)
Theorem ListBatches_cancels (fuel : nat) (c : FlightClient) (ctx : Context) (w : World) :
  (fst (ListBatches fuel c ctx w) = Panicked \/
   exists res, fst (ListBatches fuel c ctx w) = Done res) ->
  last (issued (ListBatches fuel c ctx) w) = Some call_cancel.
Proof.
  intros Hend.
  destruct (call_ctx_deadline ctx w) as (t & Hd & _).
  destruct (settled (on_ListFlights (client c) {| Expression := [] |}))
    as [[]|cause] eqn:Hopen.
  - destruct (loop_calls_extend (list_stream c ctx w) t fuel Hd [] (list_opened ctx w))
      as [l Hl].
    rewrite list_opened_calls in Hl.
    revert Hend. unfold issued. rewrite (ListBatches_opened fuel c ctx w Hopen).
    destruct (ListBatches_loop _ _ _ _) as [[ids| | |] w']; cbn [fst snd calls set_calls] in *.
    + intros _. rewrite Hl, <- !app_assoc, drop_app_length.
      rewrite !app_assoc. apply last_snoc.
    + intros _. rewrite Hl, <- !app_assoc, drop_app_length.
      rewrite !app_assoc. apply last_snoc.
    + intros [H | [res H]]; discriminate.
    + intros [H | [res H]]; discriminate.
  - destruct (ListBatches_closed fuel c ctx w cause Hopen) as [_ ->]. reflexivity.
Qed.

(** X12. [GetBatch] succeeds as soon as the stream opens, declares its
    schema and delivers one batch: it returns a record holding that batch,
    with no error, whatever the stream holds after it.  An error that the
    stream would report after its first batch is never seen. *)
Theorem GetBatch_succeeds_on_first_batch (c : FlightClient) (ctx : Context)
    (batchID : string) (w : World) (data : Batch) :
  get_reaches (client c) batchID ReadBatch ->
  on_Batch (client c) 0 = Ok (Some data) ->
  exists b,
    fst (GetBatch c ctx batchID w) = Done (Some b, None) /\
    heap (snd (GetBatch c ctx batchID w)) !! b
      = Some {| refCount := 1; contents := data |}.
Proof.
  intros Hr Hok.
  destruct (GetBatch_issued c ctx batchID w) as (tail & Ho & _).
  destruct (GetBatch c ctx batchID w) as [out w']. cbn [fst snd] in *.
  destruct Ho as [p cause Hf | [_ Hn] | data' _ Hok' b].
  - destruct (get_fails_not_read _ _ _ _ _ Hf Hr Hok).
  - congruence.
  - exists b. split; [reflexivity|].
    assert (data' = data) as -> by congruence.
    subst b. rewrite retain_then_release. apply lookup_insert_eq.
Qed.

(* ===================================================================== *)
(** * The theorems at work on concrete services                           *)
(* ===================================================================== *)

Lemma GetBatch_retains_before_release_witness :
  valid (heap (snd (GetBatch (client_of good_service) context.Background "batch-1" world0)))
        2%positive.
Proof.
  destruct (GetBatch_retains_before_release (client_of good_service) context.Background
              "batch-1" world0 (Some 2%positive))
    as (b & data & Hb & _ & _ & _ & _ & Hvalid).
  - vm_compute. reflexivity.
  - injection Hb as <-. exact Hvalid.
Defined.

Lemma PutBatch_acknowledgement_witness :
  fst (PutBatch (client_of good_service) context.Background (Some 1%positive) world0)
    = Done ("batch-1"%string, None).
Proof.
  destruct (PutBatch_acknowledgement (client_of good_service) context.Background
              (Some 1%positive) world0) as [H _].
  destruct H as [_ [H _]].
  - intros q Hq. destruct q; simpl in Hq; try lia; reflexivity.
  - exact H.
Defined.

Lemma PutBatch_descriptor_first_witness :
  exists rest,
    issued (PutBatch (client_of good_service) context.Background (Some 1%positive)) world0 =
      [ call_WithTimeout context.Background (30 * Second);
        call_DoPut (call_ctx context.Background world0);
        call_Send (descriptor_frame put_descriptor);
        call_NewRecordWriter sample_schema;
        call_Write (Some 1%positive);
        call_WriterClose ] ++ rest.
Proof.
  destruct (PutBatch_descriptor_first (client_of good_service) context.Background
              (Some 1%positive) world0) as (n & _ & _ & _ & _ & _ & Hlive).
  destruct (Hlive 1%positive {| refCount := 1; contents := sample_batch |})
    as [_ Hrest]; try reflexivity.
  exact Hrest.
Defined.

Lemma GetBatch_first_batch_witness :
  List.filter is_call_Next
    (issued (GetBatch (client_of good_service) context.Background "batch-1") world0)
  = [call_Next].
Proof.
  destruct (GetBatch_first_batch (client_of good_service) context.Background
              "batch-1" world0) as (_ & _ & H).
  destruct (H (Some 2%positive)) as (b & data & _ & _ & _ & _ & Hn & _).
  - vm_compute. reflexivity.
  - exact Hn.
Defined.

Lemma GetBatch_errors_witness :
  fst (GetBatch (client_of empty_download) context.Background "batch-1" world0)
    = Done (None, Some (errorString "no batch received")) /\
  fst (GetBatch (client_of (with_Schema (Fail (LibraryError "bad schema")) good_service))
         context.Background "batch-1" world0)
    = Done (None, Some (wrapError "failed to create record reader: bad schema"
                          (LibraryError "bad schema"))).
Proof.
  split.
  - destruct (GetBatch_errors (client_of empty_download) context.Background
                "batch-1" world0) as [H _].
    apply H. split.
    + intros q Hq. destruct q; simpl in Hq; try lia; reflexivity.
    + reflexivity.
  - destruct (GetBatch_errors
                (client_of (with_Schema (Fail (LibraryError "bad schema")) good_service))
                context.Background "batch-1" world0) as (_ & H & _).
    destruct (H CreateReader (LibraryError "bad schema")) as [Hr _].
    + split.
      * intros q Hq. destruct q; simpl in Hq; try lia; reflexivity.
      * reflexivity.
    + exact Hr.
Defined.

Lemma ListBatches_collects_witness :
  fst (ListBatches 3 (client_of good_service) context.Background world0)
    = Done (["batch-1"%string; "batch-2"%string], None).
Proof.
  refine (proj1 (ListBatches_collects 3 (client_of good_service) context.Background world0
                   [info_of "batch-1"; info_of "batch-2"]
                   ["batch-1"%string; "batch-2"%string] _ _ _ _)).
  - reflexivity.
  - split.
    + intros [|[|k]] info Hk; simpl in Hk; try discriminate;
        injection Hk as <-; reflexivity.
    + intros info. simpl. discriminate.
  - repeat constructor.
  - simpl. lia.
Defined.

Lemma PutBatch_failures_tagged_witness :
  fst (PutBatch (client_of (with_Write (Fail (LibraryError "broken pipe")) good_service))
         context.Background (Some 1%positive) world0)
    = Done (""%string,
            Some (wrapError "failed to write batch to stream: broken pipe"
                    (LibraryError "broken pipe"))).
Proof.
  destruct (PutBatch_failures_tagged
              (client_of (with_Write (Fail (LibraryError "broken pipe")) good_service))
              context.Background (Some 1%positive) world0) as [H _].
  destruct (H WriteBatch (LibraryError "broken pipe")) as [Hr _].
  - split.
    + intros q Hq. destruct q; simpl in Hq; try lia; reflexivity.
    + vm_compute. reflexivity.
  - exact Hr.
Defined.

Lemma calls_run_under_deadline_witness :
  (exists err,
     fst (GetBatch (client_of mute_service) context.Background "batch-1" world0)
       = Done (None, Some err) /\
     Is err DeadlineExceeded = true) /\
  (exists err,
     fst (PutBatch (client_of deaf_service) context.Background (Some 1%positive) world0)
       = Done (""%string, Some err) /\
     Is err DeadlineExceeded = true) /\
  (exists err,
     fst (ListBatches 1 (client_of mute_service) context.Background world0)
       = Done ([], Some err) /\
     Is err DeadlineExceeded = true) /\
  fst (ListBatches 1 (client_of deaf_service) context.Background world0) = Done ([], None).
Proof.
  assert (Hmute : unresponsive mute_service).
  { unfold unresponsive, mute_service, quiet. simpl. repeat apply conj; auto. }
  assert (Hdeaf : unresponsive deaf_service).
  { unfold unresponsive, deaf_service, quiet. simpl. repeat apply conj; auto. }
  repeat apply conj.
  - destruct (calls_run_under_deadline 1 (client_of mute_service) context.Background
                (Some 1%positive) "batch-1" world0) as (_ & _ & _ & H).
    destruct (H Hmute) as (_ & Hget & _). exact Hget.
  - destruct (calls_run_under_deadline 1 (client_of deaf_service) context.Background
                (Some 1%positive) "batch-1" world0) as (_ & _ & _ & H).
    destruct (H Hdeaf) as (Hput & _). apply Hput. simpl. eauto.
  - destruct (calls_run_under_deadline 1 (client_of mute_service) context.Background
                (Some 1%positive) "batch-1" world0) as (_ & _ & _ & H).
    destruct (H Hmute) as (_ & _ & Hlist & _). apply Hlist. reflexivity.
  - destruct (calls_run_under_deadline 1 (client_of deaf_service) context.Background
                (Some 1%positive) "batch-1" world0) as (_ & _ & _ & H).
    destruct (H Hdeaf) as (_ & _ & _ & Hlist). apply Hlist; [reflexivity | lia].
Defined.

Lemma NewFlightClient_defaults_and_dial_witness :
  fst (NewFlightClient dead_network {| Addr := ""; Allocator := None |} world0)
    = Done (None,
            Some (wrapError
                    "failed to connect to Flight server at localhost:8080: context deadline exceeded"
                    DeadlineExceeded)) /\
  fst (NewFlightClient refusing_network {| Addr := "flight:9090"; Allocator := None |} world0)
    = Done (None,
            Some (wrapError
                    "failed to connect to Flight server at flight:9090: connection refused"
                    (LibraryError "connection refused"))) /\
  fst (NewFlightClient good_network {| Addr := ""; Allocator := None |} world0)
    = Done (Some {| client := good_service;
                    addr := "localhost:8080";
                    allocator := Some GoAllocator;
                    conn := {| conn_target := "localhost:8080" |} |}, None) /\
  fst (NewFlightClient good_network
         {| Addr := "flight:9090"; Allocator := Some (OtherAllocator 7) |} world0)
    = Done (Some {| client := good_service;
                    addr := "flight:9090";
                    allocator := Some (OtherAllocator 7);
                    conn := {| conn_target := "flight:9090" |} |}, None).
Proof.
  repeat apply conj.
  - destruct (NewFlightClient_defaults_and_dial dead_network
                {| Addr := ""; Allocator := None |} world0) as (_ & _ & H & _).
    destruct H as [Hr _]; [reflexivity | exact Hr].
  - destruct (NewFlightClient_defaults_and_dial refusing_network
                {| Addr := "flight:9090"; Allocator := None |} world0) as (_ & _ & _ & H & _).
    destruct (H (LibraryError "connection refused")) as [Hr _]; [reflexivity | exact Hr].
  - destruct (NewFlightClient_defaults_and_dial good_network
                {| Addr := ""; Allocator := None |} world0)
      as (_ & _ & _ & _ & _ & _ & _ & _ & H & _).
    apply H; reflexivity.
  - destruct (NewFlightClient_defaults_and_dial good_network
                {| Addr := "flight:9090"; Allocator := Some (OtherAllocator 7) |} world0)
      as (_ & _ & _ & _ & _ & _ & _ & _ & H & _).
    apply H; reflexivity.
Defined.

Lemma ListBatches_nil_descriptor_witness :
  fst (ListBatches 3 (client_of bare_listing) context.Background world0) = Panicked.
Proof.
  destruct (ListBatches_nil_descriptor 3 (client_of bare_listing) context.Background world0)
    as [[_ H] _].
  apply H. split; [reflexivity|].
  exists 1%nat, info_bare. repeat apply conj.
  - lia.
  - intros j Hj. exists (info_of "batch-1").
    destruct j as [|j]; [|lia]. split; [reflexivity | discriminate].
  - reflexivity.
  - reflexivity.
Defined.


Lemma NewFlightClient_closes_conn_on_failure_witness :
  issued (NewFlightClient half_network {| Addr := "flight:9090"; Allocator := None |}) world0
  = [ call_Dial "flight:9090" dial_opts;
      call_NewClientWithMiddleware "flight:9090" dial_opts;
      call_ConnClose ].
Proof.
  refine (proj2 (NewFlightClient_closes_conn_on_failure half_network
                   {| Addr := "flight:9090"; Allocator := None |} world0
                   (LibraryError "connection refused") _ _)); reflexivity.
Defined.

Lemma NewFlightClient_then_Close_witness :
  calls (snd (Close good_network (client_of good_service)
                (snd (NewFlightClient good_network {| Addr := ""; Allocator := None |}
                        world0))))
  = [ call_Dial "localhost:8080" dial_opts;
      call_NewClientWithMiddleware "localhost:8080" dial_opts;
      call_ClientClose;
      call_ConnClose ].
Proof.
  refine (proj2 (NewFlightClient_then_Close good_network
                   {| Addr := ""; Allocator := None |} world0
                   (snd (NewFlightClient good_network {| Addr := ""; Allocator := None |}
                           world0))
                   (client_of good_service) _)).
  reflexivity.
Defined.

Lemma PutBatch_nil_batch_witness :
  fst (PutBatch (client_of good_service) context.Background None world0) = Panicked.
Proof.
  destruct (PutBatch_nil_batch (client_of good_service) context.Background world0)
    as [H _].
  destruct H as [Hr _]; [reflexivity | reflexivity | exact Hr].
Defined.

Lemma GetBatch_releases_reader_witness :
  exists body,
    issued (GetBatch (client_of empty_download) context.Background "batch-1") world0
      = body ++ [call_ReaderRelease; call_cancel] /\
    List.filter is_reader_release body = [].
Proof.
  destruct (GetBatch_releases_reader (client_of empty_download) context.Background
              "batch-1" world0) as [H _].
  apply H. split; reflexivity.
Defined.

Lemma ListBatches_error_only_on_open_witness :
  fst (ListBatches 3 (client_of closed_listing) context.Background world0)
    = Done ([], Some (wrapError "failed to start ListFlights stream: unavailable"
                        (LibraryError "unavailable"))).
Proof.
  destruct (ListBatches_error_only_on_open 3 (client_of closed_listing)
              context.Background world0) as [H _].
  apply H. split; [reflexivity|].
  exists (LibraryError "unavailable"). split; reflexivity.
Defined.

Lemma ListBatches_cancels_witness :
  last (issued (ListBatches 3 (client_of bare_listing) context.Background) world0)
  = Some call_cancel.
Proof.
  apply (ListBatches_cancels 3 (client_of bare_listing) context.Background world0).
  left. vm_compute. reflexivity.
Defined.

Lemma GetBatch_succeeds_on_first_batch_witness :
  exists b,
    fst (GetBatch (client_of truncated_download) context.Background "batch-1" world0)
      = Done (Some b, None) /\
    heap (snd (GetBatch (client_of truncated_download) context.Background "batch-1" world0))
      !! b = Some {| refCount := 1; contents := sample_batch |}.
Proof.
  apply (GetBatch_succeeds_on_first_batch (client_of truncated_download)
           context.Background "batch-1" world0 sample_batch).
  - intros q Hq. destruct q; simpl in Hq; try lia; reflexivity.
  - reflexivity.
Defined.
